(** * Expense tracker (Expense_Tracker.py): shallow embedding and properties

    The program is a sequential command-line script.  It is embedded as
    follows.

    - Text is [string], read as UTF-8 bytes; the helpers in [PyStr]
      follow [str.strip], [str.lower], [str.split] and the line
      iteration of a text file on the ASCII range.
    - A Python [float] is a [pyfloat]: an exact rational, an infinity or
      NaN.  Arithmetic is exact: rounding, overflow and the sign of zero
      of binary64 are not represented.  [float_of_string] follows the
      grammar that [float()] accepts (ASCII digits and white space),
      [str_of_float] the layout of [repr]: positional or with an
      exponent.
    - The files of the working directory are a [gmap string string] from
      file name to content; the console is a list of pending input lines
      and a list of emitted events, which carry the values that the
      format strings lay out (the layout itself, the colours and the
      drawing of the chart are not represented); the clock is the
      current date.
    - Functions with effects live in the monad [M]: a state transformer
      over [world] whose outcome is a value or a raised exception. *)

From Stdlib Require Import ZArith QArith Qcanon Qpower Lia Ascii String List Znumtheory.
From stdpp Require Import base strings gmap list numbers pretty.

Local Open Scope string_scope.
Local Open Scope list_scope.

(** ** Part I: definitions *)

(** *** Strings *)

Module PyStr.

Definition code (c : ascii) : N := N_of_ascii c.

(** [str.isspace] on the ASCII range: TAB, LF, VT, FF, CR, FS, GS, RS,
    US and the space. *)
Definition isspace (c : ascii) : bool :=
  ((9 <=? code c) && (code c <=? 13) || (28 <=? code c) && (code c <=? 32))%N.

Definition isdigit (c : ascii) : bool :=
  ((48 <=? code c) && (code c <=? 57))%N.

Definition is_empty (s : string) : bool :=
  match s with EmptyString => true | String _ _ => false end.

Fixpoint lstrip (s : string) : string :=
  match s with
  | EmptyString => EmptyString
  | String c r => if isspace c then lstrip r else s
  end.

(** Remove the longest suffix whose characters all satisfy [p]. *)
Fixpoint rstrip_by (p : ascii -> bool) (s : string) : string :=
  match s with
  | EmptyString => EmptyString
  | String c r =>
      let r' := rstrip_by p r in
      if p c && is_empty r' then EmptyString else String c r'
  end.

Definition rstrip (s : string) : string := rstrip_by isspace s.

(** [s.strip()] *)
Definition strip (s : string) : string := rstrip (lstrip s).

Definition lower_char (c : ascii) : ascii :=
  if ((65 <=? code c) && (code c <=? 90))%N
  then ascii_of_N (code c + 32) else c.

(** [s.lower()] *)
Fixpoint lower (s : string) : string :=
  match s with
  | EmptyString => EmptyString
  | String c r => String (lower_char c) (lower r)
  end.

(** [s.split(sep)] for a one-character separator: never the empty list. *)
Fixpoint split (sep : ascii) (s : string) : list string :=
  match s with
  | EmptyString => [EmptyString]
  | String c r =>
      if Ascii.eqb c sep then EmptyString :: split sep r
      else match split sep r with
           | f :: fs => String c f :: fs
           | [] => [String c EmptyString]
           end
  end.

Definition LF : ascii := ascii_of_N 10.
Definition CR : ascii := ascii_of_N 13.

(** The lines that iterating over a text file yields (universal
    newlines: LF, CR and CR LF end a line).  The terminator is left
    out; every use strips the line, which would remove it. *)
Fixpoint splitlines (s : string) : list string :=
  match s with
  | EmptyString => []
  | String c r =>
      if Ascii.eqb c LF then EmptyString :: splitlines r
      else if Ascii.eqb c CR then
        match r with
        | String c' r' =>
            if Ascii.eqb c' LF then EmptyString :: splitlines r'
            else EmptyString :: splitlines r
        | EmptyString => [EmptyString]
        end
      else match splitlines r with
           | l :: ls => String c l :: ls
           | [] => [String c EmptyString]
           end
  end.

(** Cut at the first character satisfying [p]: the part before it and,
    when there is one, the part after it. *)
Fixpoint cut (p : ascii -> bool) (s : string) : string * option string :=
  match s with
  | EmptyString => (EmptyString, None)
  | String c r =>
      if p c then (EmptyString, Some r)
      else let '(a, b) := cut p r in (String c a, b)
  end.

Fixpoint all_chars (p : ascii -> bool) (s : string) : bool :=
  match s with
  | EmptyString => true
  | String c r => p c && all_chars p r
  end.

Definition digit_val (c : ascii) : option N :=
  if isdigit c then Some (code c - 48)%N else None.

(** Value of a run of decimal digits read after the prefix worth [acc]. *)
Fixpoint digits_val (s : string) (acc : N) : option N :=
  match s with
  | EmptyString => Some acc
  | String c r =>
      match digit_val c with
      | Some d => digits_val r (acc * 10 + d)%N
      | None => None
      end
  end.

Definition digit_char (d : N) : ascii := ascii_of_N (48 + d).

Fixpoint digits_go (fuel : nat) (n : N) (acc : string) : string :=
  let acc' := String (digit_char (n mod 10)) acc in
  match fuel with
  | O => acc'
  | S f => if (n / 10 =? 0)%N then acc' else digits_go f (n / 10)%N acc'
  end.

(** Decimal digits of [n], without leading zeros. *)
Definition digits (n : N) : string :=
  digits_go (N.to_nat (N.size n)) n EmptyString.

Fixpoint replicate_char (k : nat) (c : ascii) : string :=
  match k with
  | O => EmptyString
  | S k' => String c (replicate_char k' c)
  end.

(** Pad on the left with ["0"] up to width [w] (as [{:0wd}]). *)
Definition zfill (w : nat) (s : string) : string :=
  replicate_char (w - String.length s) "0" +:+ s.

Fixpoint take (k : nat) (s : string) : string :=
  match k, s with
  | S k', String c r => String c (take k' r)
  | _, _ => EmptyString
  end.

Fixpoint drop (k : nat) (s : string) : string :=
  match k, s with
  | S k', String _ r => drop k' r
  | _, _ => s
  end.

(** The underscores that [int()] and [float()] allow: single ones, each
    between two digits.  Returns the text without them. *)
Fixpoint drop_underscores (after_digit : bool) (s : string) : option string :=
  match s with
  | EmptyString => Some EmptyString
  | String c r =>
      if Ascii.eqb c "_" then
        match r with
        | String c' _ =>
            if after_digit && isdigit c' then drop_underscores false r else None
        | EmptyString => None
        end
      else String c <$> drop_underscores (isdigit c) r
  end.

(** An optional sign in front of the rest. *)
Definition cut_sign (s : string) : bool * string :=
  match s with
  | String c r =>
      if Ascii.eqb c "-" then (true, r)
      else if Ascii.eqb c "+" then (false, r)
      else (false, s)
  | EmptyString => (false, s)
  end.

(** [int(s)] in base ten; [None] stands for [ValueError]. *)
Definition int_of_string (s : string) : option Z :=
  t ← drop_underscores false (strip s);
  let '(neg, u) := cut_sign t in
  if is_empty u then None
  else n ← digits_val u 0;
       Some (if neg then - Z.of_N n else Z.of_N n)%Z.

Definition other_than (sep : ascii) (c : ascii) : bool := negb (Ascii.eqb c sep).

Definition no_break (c : ascii) : bool :=
  negb (Ascii.eqb c LF) && negb (Ascii.eqb c CR).

(** A text ends its last line when it is empty or ends with LF. *)
Definition terminated (s : string) : Prop :=
  s = EmptyString \/ exists s', s = s' +:+ String LF EmptyString.

End PyStr.

(** *** Floating-point values *)

Module PyFloat.
Import PyStr.

(** A value of type [float]: a finite number, [inf], [-inf] or [nan]. *)
Inductive pyfloat : Type :=
| Fin (q : Qc)
| Inf (neg : bool)
| NaN.

#[global] Instance pyfloat_eq_dec : EqDecision pyfloat.
Proof. solve_decision. Defined.

Definition of_Z (z : Z) : pyfloat := Fin (Q2Qc (inject_Z z)).

Definition zero : pyfloat := of_Z 0.

Definition is_negQ (q : Qc) : bool := bool_decide (q < 0)%Qc.

Definition neg (x : pyfloat) : pyfloat :=
  match x with
  | Fin q => Fin (- q)%Qc
  | Inf s => Inf (negb s)
  | NaN => NaN
  end.

Definition add (x y : pyfloat) : pyfloat :=
  match x, y with
  | NaN, _ | _, NaN => NaN
  | Fin a, Fin b => Fin (a + b)%Qc
  | Inf s, Fin _ | Fin _, Inf s => Inf s
  | Inf s, Inf t => if Bool.eqb s t then Inf s else NaN
  end.

Definition sub (x y : pyfloat) : pyfloat := add x (neg y).

Definition mul (x y : pyfloat) : pyfloat :=
  match x, y with
  | NaN, _ | _, NaN => NaN
  | Fin a, Fin b => Fin (a * b)%Qc
  | Inf s, Fin q | Fin q, Inf s =>
      if bool_decide (q = 0%Qc) then NaN else Inf (xorb s (is_negQ q))
  | Inf s, Inf t => Inf (xorb s t)
  end.

(** [bool(x)]: every value except zero is true, NaN included. *)
Definition truthy (x : pyfloat) : bool :=
  match x with
  | Fin q => negb (bool_decide (q = 0%Qc))
  | _ => true
  end.

(** [x / y]; [None] stands for [ZeroDivisionError], raised for every
    [x] when [y] is zero. *)
Definition div (x y : pyfloat) : option pyfloat :=
  if truthy y then
    Some match x, y with
         | NaN, _ | _, NaN => NaN
         | Fin a, Fin b => Fin (a / b)%Qc
         | Fin _, Inf _ => zero
         | Inf s, Fin q => Inf (xorb s (is_negQ q))
         | Inf _, Inf _ => NaN
         end
  else None.

(** [x < y] *)
Definition ltb (x y : pyfloat) : bool :=
  match x, y with
  | NaN, _ | _, NaN => false
  | Fin a, Fin b => bool_decide (a < b)%Qc
  | Fin _, Inf s => negb s
  | Inf s, Fin _ => s
  | Inf s, Inf t => s && negb t
  end.

(** [x >= y] *)
Definition geb (x y : pyfloat) : bool :=
  match x, y with
  | NaN, _ | _, NaN => false
  | Fin a, Fin b => bool_decide (b <= a)%Qc
  | Fin _, Inf s => s
  | Inf s, Fin _ => negb s
  | Inf s, Inf t => negb s || t
  end.

(** The number [(-1)^neg * n * 10^e]. *)
Definition dec_value (neg : bool) (n : N) (e : Z) : Qc :=
  Q2Qc (inject_Z (if neg then - Z.of_N n else Z.of_N n) * Qpower (10 # 1) e).

Definition is_e (c : ascii) : bool := Ascii.eqb c "e" || Ascii.eqb c "E".
Definition is_dot (c : ascii) : bool := Ascii.eqb c ".".

(** The exponent after [e]: an optional sign and at least one digit. *)
Definition parse_exponent (s : string) : option Z :=
  let '(neg, u) := cut_sign s in
  if is_empty u then None
  else n ← digits_val u 0;
       Some (if neg then - Z.of_N n else Z.of_N n)%Z.

(** A decimal literal: digits with an optional point, at least one
    digit in all, and an optional exponent. *)
Definition parse_decimal (neg : bool) (u : string) : option pyfloat :=
  let '(mant, ex) := cut is_e u in
  e ← match ex with
      | None => Some 0%Z
      | Some es => parse_exponent es
      end;
  let '(ip, fo) := cut is_dot mant in
  let fp := default EmptyString fo in
  if is_empty (ip +:+ fp) then None
  else n ← digits_val (ip +:+ fp) 0;
       Some (Fin (dec_value neg n (e - Z.of_nat (String.length fp)))).

(** [float(s)]; [None] stands for [ValueError]. *)
Definition float_of_string (s : string) : option pyfloat :=
  t ← drop_underscores false (strip s);
  let '(neg, u) := cut_sign t in
  let lu := lower u in
  if bool_decide (lu = "inf") || bool_decide (lu = "infinity") then Some (Inf neg)
  else if bool_decide (lu = "nan") then Some NaN
  else parse_decimal neg u.

(** Multiply the fraction [n / d] by ten until it is an integer: the
    integer and the number of steps, when [d] divides a power of ten. *)
Fixpoint scale_loop (fuel : nat) (n d : Z) (k : nat) : option (Z * nat) :=
  if (d =? 1)%Z then Some (n, k)
  else match fuel with
       | O => None
       | S f =>
           let g := Z.gcd 10 d in
           if (g =? 1)%Z then None
           else scale_loop f (n * (10 / g))%Z (d / g)%Z (S k)
       end.

(** [n / 10^k] written with a point: [k] digits after it, or ["0"]. *)
Definition positional (n : N) (k : nat) : string :=
  let s := zfill (S k) (digits n) in
  let w := (String.length s - k)%nat in
  take w s +:+ "." +:+ (if (k =? 0)%nat then "0" else drop w s).

(** [n / 10^k] with one digit before the point and a power of ten, the
    form [repr] switches to for very large and very small numbers. *)
Definition scientific (n : N) (k : nat) : string :=
  let ds := digits n in
  let sig := rstrip_by (Ascii.eqb "0") ds in
  let e := (Z.of_nat (String.length ds) - Z.of_nat k - 1)%Z in
  take 1 sig
  +:+ (if (String.length sig =? 1)%nat then EmptyString else "." +:+ drop 1 sig)
  +:+ "e" +:+ (if (e <? 0)%Z then "-" else "+")
  +:+ zfill 2 (digits (Z.to_N (Z.abs e))).

(** The magnitude [n / 10^k], [k] minimal, as [repr] lays it out. *)
Definition repr_abs (n : N) (k : nat) : string :=
  let decpt := (Z.of_nat (String.length (digits n)) - Z.of_nat k)%Z in
  if (n =? 0)%N || ((-4 <? decpt) && (decpt <=? 16))%Z
  then positional n k else scientific n k.

(** [str(x)] (the same text as [repr(x)] and as [f"{x}"]).  A finite
    value with a finite decimal expansion is printed exactly; the
    values [float_of_string] returns and their sums, differences and
    products are of that kind.  Another rational, which only a division
    can produce, is cut after 17 decimals. *)
Definition str_of_float (x : pyfloat) : string :=
  match x with
  | NaN => "nan"
  | Inf s => if s then "-inf" else "inf"
  | Fin q =>
      let a := Z.abs (Qnum q) in
      let d := Z.pos (Qden q) in
      (if is_negQ q then "-" else EmptyString)
      +:+ match scale_loop (S (Z.to_nat (Z.log2 d))) a d 0 with
          | Some (n, k) => repr_abs (Z.to_N n) k
          | None => positional (Z.to_N (a * 10 ^ 17 / d)) 17
          end
  end.

(** The finite values with a finite decimal expansion. *)
Definition finite_decimal (q : Qc) : Prop :=
  exists j : nat, (Z.pos (Qden q) | 10 ^ Z.of_nat j)%Z.

(** The values that [float_of_string] returns; [str_of_float] prints
    them exactly. *)
Definition representable (x : pyfloat) : Prop :=
  match x with
  | Fin q => finite_decimal q
  | _ => True
  end.

Definition dot_part (fo : option string) : string :=
  match fo with Some fp => String "." fp | None => EmptyString end.

Definition exp_part (ex : option string) : string :=
  match ex with Some es => String "e" es | None => EmptyString end.

(** What a printed magnitude reads back as: a mantissa [m] and an
    exponent [e] worth the same as [n / 10^k]. *)
Definition reads_as (neg : bool) (body : string) (n : N) (k : nat) : Prop :=
  exists (m : N) (e : Z),
    parse_decimal neg body = Some (Fin (dec_value neg m e)) /\
    (inject_Z (Z.of_N m) * (10 # 1) ^ e
     == inject_Z (Z.of_N n) * (10 # 1) ^ (- Z.of_nat k))%Q.

(** Digits, the point, the exponent mark, the signs and the letters of
    [inf] and [nan]. *)
Definition numchar (c : ascii) : bool :=
  isdigit c || existsb (Ascii.eqb c) (list_ascii_of_string ".e+-infa").

Definition starts_with_digit (s : string) : Prop :=
  exists c r, s = String c r /\ isdigit c = true.

(** The numeric value of a finite float, to tell values apart. *)
Definition Qof (x : pyfloat) : Q :=
  match x with Fin q => this q | _ => 0%Q end.

End PyFloat.

(** *** Calendar dates *)

Module PyDate.
Import PyStr.

(** A [datetime.date]. *)
Record date : Type := mkDate { year : nat; month : nat; day : nat }.

#[global] Instance date_eq_dec : EqDecision date.
Proof. solve_decision. Defined.

Definition isleap (y : nat) : bool :=
  ((y mod 4 =? 0) && negb (y mod 100 =? 0) || (y mod 400 =? 0))%nat.

(** [calendar.monthrange(y, m)[1]]: the number of days of the month.
    (For a month outside 1..12 the library raises; no date has one,
    and the value is 0 here.) *)
Definition days_in_month (y m : nat) : nat :=
  match m with
  | 1 | 3 | 5 | 7 | 8 | 10 | 12 => 31
  | 4 | 6 | 9 | 11 => 30
  | 2 => if isleap y then 29 else 28
  | _ => 0
  end%nat.

Definition dec (n : nat) : string := digits (N.of_nat n).

(** [str(d)], the ISO form [YYYY-MM-DD]. *)
Definition isoformat (d : date) : string :=
  zfill 4 (dec (year d)) +:+ "-" +:+ zfill 2 (dec (month d))
  +:+ "-" +:+ zfill 2 (dec (day d)).

(** [d.replace(day=1) - datetime.timedelta(days=1)]: the last day of
    the month before; [None] stands for the [OverflowError] raised
    in January of year 1. *)
Definition last_day_of_previous_month (d : date) : option date :=
  if (month d =? 1)%nat then
    if (year d <=? 1)%nat then None
    else Some (mkDate (year d - 1) 12 31)
  else Some (mkDate (year d) (month d - 1)
               (days_in_month (year d) (month d - 1))).

(** Digits and the hyphen, the characters of a printed date. *)
Definition datechar (c : ascii) : bool := isdigit c || Ascii.eqb c "-".

End PyDate.

(** *** The world and the monad of effects *)

Module Effects.
Import PyStr PyFloat PyDate.

(** What [input] asks. *)
Inductive prompt : Type :=
| AskReuseBudget (today : date) (prev_budget_value : pyfloat)
| AskBudget (today : date)
| AskName
| AskAmount
| AskChoice
| AskShowPie
| AskAddExpense.

(** What the program writes to the console or draws, with the values
    that the format strings lay out. *)
Inductive event : Type :=
| Prompt (p : prompt)
| MsgTitle (today : date)
| MsgBudgetPositive
| MsgAmountPositive
| MsgInvalidNumber
| MsgEnterExpense
| MsgSelectCategory
| MsgCategoryItem (i : nat) (emj cat : string)
| MsgInvalidSelection
| MsgEnterNumber
| MsgSaved
| MsgNoExpenses
| MsgSkipping (line : string)
| MsgSummaryHeader
| MsgCategoryLine (emoji cat : string) (amt pct : pyfloat)
| MsgTotalSpent (total_spent : pyfloat)
| MsgRemaining (remaining : pyfloat)
| MsgDaily (daily : pyfloat)
| PieChart (labels : list string) (sizes explode : list pyfloat).

Inductive exn : Type :=
| ValueError
| ZeroDivisionError
| EOFError
| OverflowError
| FileNotFoundError.

Inductive outcome (A : Type) : Type :=
| Ok (a : A)
| Raise (e : exn).
Arguments Ok {A} a.
Arguments Raise {A} e.

(** Files by name, the lines still to be typed, the console so far
    (oldest first) and the current date. *)
Record world : Type := mkWorld {
  fs : gmap string string;
  stdin : list string;
  stdout : list event;
  clock : date
}.

#[global] Instance prompt_eq_dec : EqDecision prompt.
Proof. solve_decision. Defined.
#[global] Instance event_eq_dec : EqDecision event.
Proof. solve_decision. Defined.
#[global] Instance exn_eq_dec : EqDecision exn.
Proof. solve_decision. Defined.
#[global] Instance outcome_eq_dec `{EqDecision A} : EqDecision (outcome A).
Proof. solve_decision. Defined.
#[global] Instance world_eq_dec : EqDecision world.
Proof. solve_decision. Defined.

Definition set_fs (f : gmap string string) (w : world) : world :=
  mkWorld f (stdin w) (stdout w) (clock w).
Definition set_stdin (l : list string) (w : world) : world :=
  mkWorld (fs w) l (stdout w) (clock w).
Definition emit (es : list event) (w : world) : world :=
  mkWorld (fs w) (stdin w) (stdout w ++ es) (clock w).

Definition M (A : Type) : Type := world -> outcome A * world.

Definition ret {A} (a : A) : M A := fun w => (Ok a, w).

Definition bind {A B} (m : M A) (k : A -> M B) : M B :=
  fun w => match m w with
           | (Ok a, w') => k a w'
           | (Raise e, w') => (Raise e, w')
           end.

Definition raise {A} (e : exn) : M A := fun w => (Raise e, w).

#[global] Instance M_ret : MRet M := @ret.
#[global] Instance M_bind : MBind M := fun A B k m => bind m k.

(** [print(...)] *)
Definition print (e : event) : M unit := fun w => (Ok tt, emit [e] w).

(** [input(p)]: writes the prompt and reads one line; end of input
    raises [EOFError]. *)
Definition input (p : prompt) : M string :=
  fun w => match stdin w with
           | l :: rest => (Ok l, set_stdin rest (emit [Prompt p] w))
           | [] => (Raise EOFError, emit [Prompt p] w)
           end.

(** [path.exists()] *)
Definition path_exists (path : string) : M bool :=
  fun w => (Ok (bool_decide (is_Some (fs w !! path))), w).

(** [path.read_text()] *)
Definition read_text (path : string) : M string :=
  fun w => match fs w !! path with
           | Some c => (Ok c, w)
           | None => (Raise FileNotFoundError, w)
           end.

(** [path.write_text(s)] *)
Definition write_text (path s : string) : M unit :=
  fun w => (Ok tt, set_fs (<[path := s]> (fs w)) w).

(** [with path.open("a") as f: f.write(s)] *)
Definition append_text (path s : string) : M unit :=
  fun w => (Ok tt, set_fs (<[path := default EmptyString (fs w !! path) +:+ s]> (fs w)) w).

(** [path.stat().st_size == 0] *)
Definition size_is_zero (path : string) : M bool :=
  c ← read_text path; mret (is_empty c).

(** [datetime.date.today()] *)
Definition date_today : M date := fun w => (Ok (clock w), w).

(** [float(s)] with its [ValueError]. *)
Definition py_float (s : string) : M pyfloat :=
  match float_of_string s with
  | Some x => mret x
  | None => raise ValueError
  end.

(** [x / y] with its [ZeroDivisionError]. *)
Definition py_div (x y : pyfloat) : M pyfloat :=
  match div x y with
  | Some q => mret q
  | None => raise ZeroDivisionError
  end.

(** [for x in l: s = f(x, s)] *)
Fixpoint for_each {A S} (l : list A) (s : S) (f : A -> S -> M S) : M S :=
  match l with
  | [] => mret s
  | x :: r => s' ← f x s; for_each r s' f
  end.

(** A computation that leaves every file as it is, whatever it
    returns or raises. *)
Definition keeps_files {A} (m : M A) : Prop :=
  forall w, fs (m w).2 = fs w.

Definition empty_world (today : date) : world := mkWorld ∅ [] [] today.

End Effects.

(** *** The program *)

Module Tracker.
Import PyStr PyFloat PyDate Effects.

(** [class Expense] *)
Record Expense : Type := mkExpense {
  name : string;
  category : string;
  amount : pyfloat
}.

#[global] Instance Expense_eq_dec : EqDecision Expense.
Proof. solve_decision. Defined.

Definition EXPENSE_CATEGORIES : list (string * string) :=
  [ ("Food", "🍔"); ("Transport", "🚌"); ("Home", "🏠"); ("Utilities", "💡");
    ("Groceries", "🛒"); ("Entertainment", "🎮"); ("Health", "💊");
    ("Education", "📚"); ("Shopping", "🛍️"); ("Work", "💼");
    ("Travel", "✈️"); ("Miscellaneous", "📦") ].

(** [f"{date.year}-{date.month:02d}"] *)
Definition month_label (d : date) : string :=
  dec (year d) +:+ "-" +:+ zfill 2 (dec (month d)).

Definition expense_file_for (d : date) : string :=
  "expenses_" +:+ month_label d +:+ ".csv".

Definition budget_file_for (d : date) : string :=
  "budget_" +:+ month_label d +:+ ".txt".

(** [s.strip().lower() == "y"] *)
Definition says_yes (s : string) : bool :=
  bool_decide (lower (strip s) = "y").

(** The loop [while True: try: x = float(input(p)) ...] shared in shape
    by the budget entry (lines 84-93) and the amount entry (lines
    107-115): a text that is no number, then a number below zero, are
    answered by a message and a new prompt; anything else is
    returned.  Each round reads one line, so the loop runs along the
    pending input. *)
Fixpoint entry_rounds (p : prompt) (negative_msg : event)
    (lines : list string) (out : list event)
  : outcome pyfloat * list string * list event :=
  match lines with
  | [] => (Raise EOFError, [], out ++ [Prompt p])
  | l :: rest =>
      match float_of_string l with
      | Some x =>
          if ltb x zero
          then entry_rounds p negative_msg rest (out ++ [Prompt p; negative_msg])
          else (Ok x, rest, out ++ [Prompt p])
      | None =>
          entry_rounds p negative_msg rest (out ++ [Prompt p; MsgInvalidNumber])
      end
  end.

Definition entry_loop (p : prompt) (negative_msg : event) : M pyfloat :=
  fun w =>
    let '(r, rest, out) := entry_rounds p negative_msg (stdin w) [] in
    (r, set_stdin rest (emit out w)).

Definition load_or_create_budget (today : date) : M pyfloat :=
  let this_month_budget := budget_file_for today in
  (* 3. Ask for a fresh budget *)
  let fresh : M pyfloat :=
    new_budget ← entry_loop (AskBudget today) MsgBudgetPositive;
    write_text this_month_budget (str_of_float new_budget);;
    mret new_budget in
  (* 1. Already have a budget for this month *)
  have ← path_exists this_month_budget;
  if have : bool then
    c ← read_text this_month_budget; py_float (strip c)
  else
    (* 2. Maybe reuse last month's budget? *)
    match last_day_of_previous_month today with
    | None => raise OverflowError
    | Some prev_month_date =>
        let prev_budget_path := budget_file_for prev_month_date in
        have_prev ← path_exists prev_budget_path;
        if (day today =? 1)%nat && have_prev then
          c ← read_text prev_budget_path;
          prev_budget_value ← py_float (strip c);
          ans ← input (AskReuseBudget today prev_budget_value);
          if says_yes ans then
            write_text this_month_budget (str_of_float prev_budget_value);;
            mret prev_budget_value
          else fresh
        else fresh
    end.

Definition category_menu : list event :=
  MsgSelectCategory
    :: imap (fun i '(cat, emj) => MsgCategoryItem (S i) emj cat) EXPENSE_CATEGORIES.

(** The category loop of [get_user_expense] (lines 117-128). *)
Fixpoint category_rounds (lines : list string) (out : list event)
  : outcome string * list string * list event :=
  let out := out ++ category_menu ++ [Prompt AskChoice] in
  match lines with
  | [] => (Raise EOFError, [], out)
  | l :: rest =>
      match int_of_string l with
      | Some i =>
          let idx := (i - 1)%Z in
          if ((0 <=? idx) && (idx <? Z.of_nat (length EXPENSE_CATEGORIES)))%Z then
            (Ok (nth (Z.to_nat idx) EXPENSE_CATEGORIES (EmptyString, EmptyString)).1,
             rest, out)
          else category_rounds rest (out ++ [MsgInvalidSelection])
      | None => category_rounds rest (out ++ [MsgEnterNumber])
      end
  end.

Definition category_loop : M string :=
  fun w =>
    let '(r, rest, out) := category_rounds (stdin w) [] in
    (r, set_stdin rest (emit out w)).

Definition get_user_expense : M Expense :=
  print MsgEnterExpense;;
  line ← input AskName;
  let name := strip line in
  amt ← entry_loop AskAmount MsgAmountPositive;
  category ← category_loop;
  mret (mkExpense name category amt).

(** The text [f"{today},{exp.name},{exp.amount},{exp.category}"]. *)
Definition row_text (today : date) (exp : Expense) : string :=
  isoformat today +:+ "," +:+ name exp +:+ "," +:+ str_of_float (amount exp)
  +:+ "," +:+ category exp.

(** The row written to the store: the text and a line feed. *)
Definition expense_row (today : date) (exp : Expense) : string :=
  row_text today exp +:+ String LF EmptyString.

(** The store is a file of the working directory, whose parent always
    exists: the [mkdir] of line 133 does nothing. *)
Definition save_expense (exp : Expense) (file_path : string) : M unit :=
  today ← date_today;
  append_text file_path (expense_row today exp);;
  print MsgSaved.

(** An insertion-ordered [dict] from category to amount. *)
Definition dict : Type := list (string * pyfloat).

Fixpoint dict_get (d : dict) (k : string) (dflt : pyfloat) : pyfloat :=
  match d with
  | [] => dflt
  | (k', v) :: r => if bool_decide (k' = k) then v else dict_get r k dflt
  end.

(** [d[k] = v]: in place for a key already there, at the end for a new one. *)
Fixpoint dict_set (d : dict) (k : string) (v : pyfloat) : dict :=
  match d with
  | [] => [(k, v)]
  | (k', v') :: r =>
      if bool_decide (k' = k) then (k, v) :: r else (k', v') :: dict_set r k v
  end.

Definition hundred : pyfloat := of_Z 100.

(** The event [PieChart labels sizes explode] stands for the calls of
    lines 157-167, [plt.pie(sizes, labels=labels, explode=explode,
    ...)] among them.  What the library does with the three lists is
    not represented: it refuses a negative size with [ValueError],
    for one.  A statement about what [visual_summary] returns is
    therefore a statement about the embedding only; the lists that
    it hands over are those of the code. *)
Definition visual_summary (amount_by_cat : dict) (total_spent : pyfloat)
    (remaining_percent budget : pyfloat) : M unit :=
  '(labels, sizes, explode) ←
    for_each amount_by_cat
      (["Remaining"], [remaining_percent], [Fin (Q2Qc (6 # 100))])
      (fun '(cat, amt) '(labels, sizes, explode) =>
         percent ← (if truthy budget
                    then q ← py_div amt budget; mret (mul q hundred)
                    else mret zero);
         mret (labels ++ [cat], sizes ++ [percent], explode ++ [zero]));
  print (PieChart labels sizes explode).

(** The body of the [try] of lines 179-181; [None] stands for the
    [ValueError] of an unpacking that does not find four fields or of
    a [float] that does not read the amount. *)
Definition parse_line (line : string) : option Expense :=
  match split "," (strip line) with
  | [_; name; amt; cat] => a ← float_of_string amt; Some (mkExpense name cat a)
  | _ => None
  end.

(** The reading loop of [summarize] (lines 176-183) over the text of
    the store: a line that parses adds a record, another one is
    reported and skipped. *)
Definition read_expenses (content : string) : M (list Expense) :=
  for_each (splitlines content) ([] : list Expense)
    (fun line expenses =>
       match parse_line line with
       | Some exp => mret (expenses ++ [exp])
       | None => print (MsgSkipping (strip line));; mret expenses
       end).

(** [next((e for c, e in EXPENSE_CATEGORIES if c == cat), '')] *)
Definition emoji_of (cat : string) : string :=
  match filter (fun ce => ce.1 = cat) EXPENSE_CATEGORIES with
  | (_, e) :: _ => e
  | [] => EmptyString
  end.

(** [sum(exp.amount for exp in expenses)] *)
Definition sum_amounts (expenses : list Expense) : pyfloat :=
  fold_left (fun acc exp => add acc (amount exp)) expenses zero.


(** The loop of lines 185-187, which builds [amount_by_cat]. *)
Definition aggregate (expenses : list Expense) : dict :=
  fold_left
    (fun d exp =>
       dict_set d (category exp) (add (dict_get d (category exp) zero) (amount exp)))
    expenses [].

(** [calendar.monthrange(today.year, today.month)[1] - today.day] *)
Definition days_left_on (today : date) : Z :=
  (Z.of_nat (days_in_month (year today) (month today)) - Z.of_nat (day today))%Z.

Definition summarize (expense_path : string) (budget : pyfloat) : M unit :=
  have ← path_exists expense_path;
  empty ← (if have : bool then size_is_zero expense_path else mret true);
  if negb have || empty then print MsgNoExpenses
  else
    content ← read_text expense_path;
    expenses ← read_expenses content;
    let amount_by_cat := aggregate expenses in
    let total_spent := sum_amounts expenses in
    let remaining := sub budget total_spent in
    remaining_pct ← (if truthy budget
                     then q ← py_div remaining budget; mret (mul q hundred)
                     else mret zero);
    (* CLI output *)
    print MsgSummaryHeader;;
    for_each amount_by_cat tt
      (fun '(cat, amt) _ =>
         pct ← (if truthy total_spent
                then q ← py_div amt budget; mret (mul q hundred)
                else mret zero);
         pct ← (if truthy total_spent
                then q ← py_div amt total_spent; mret (mul q hundred)
                else mret zero);
         print (MsgCategoryLine (emoji_of cat) cat amt pct));;
    print (MsgTotalSpent total_spent);;
    print (MsgRemaining remaining);;
    (* Daily budget left *)
    today ← date_today;
    let days_left := days_left_on today in
    daily ← (if negb (days_left =? 0)%Z
             then py_div remaining (of_Z days_left)
             else mret zero);
    print (MsgDaily daily);;
    (* Optional pie chart *)
    ans ← input AskShowPie;
    if says_yes ans
    then visual_summary amount_by_cat total_spent remaining_pct budget
    else mret tt.

Definition main : M unit :=
  today ← date_today;
  print (MsgTitle today);;
  budget ← load_or_create_budget today;
  let exp_file := expense_file_for today in
  ans ← input AskAddExpense;
  (if says_yes ans
   then exp ← get_user_expense; save_expense exp exp_file
   else mret tt);;
  summarize exp_file budget.

End Tracker.

(** *** What the report shows *)

Module Report.
Import PyStr PyFloat PyDate Effects Tracker.

(** [amt / base * 100], and 0 when [base] is zero. *)
Definition pct_of (amt base : pyfloat) : pyfloat :=
  match div amt base with
  | Some q => mul q hundred
  | None => zero
  end.

(** The records that the reading loop of [summarize] keeps. *)
Definition parsed_lines (lines : list string) : list Expense :=
  omap parse_line lines.

(** The lines it skips, as its warnings show them. *)
Definition skipped_lines (lines : list string) : list string :=
  strip <$> filter (fun l => parse_line l = None) lines.

Definition category_lines (amount_by_cat : dict) (total_spent : pyfloat) : list event :=
  (fun '(cat, amt) => MsgCategoryLine (emoji_of cat) cat amt (pct_of amt total_spent))
    <$> amount_by_cat.

(** [remaining / days_left if days_left else 0] *)
Definition daily_allowance (remaining : pyfloat) (days_left : Z) : pyfloat :=
  match div remaining (of_Z days_left) with
  | Some q => q
  | None => zero
  end.

(** The chart that [visual_summary] asks the library for. *)
Definition pie_chart (amount_by_cat : dict) (remaining_percent budget : pyfloat) : event :=
  PieChart ("Remaining" :: amount_by_cat.*1)
    (remaining_percent :: ((fun ca => pct_of ca.2 budget) <$> amount_by_cat))
    (Fin (Q2Qc (6 # 100)) :: ((fun _ => zero) <$> amount_by_cat)).

(** The first percentage of the category loop (line 196) divides by a
    zero budget. *)
Definition divides_by_zero_budget (amount_by_cat : dict) (total_spent budget : pyfloat) : bool :=
  truthy total_spent && negb (truthy budget)
  && match amount_by_cat with [] => false | _ => true end.

(** The console output of [summarize] up to the category loop. *)
Definition report_head (content : string) : list event :=
  (MsgSkipping <$> skipped_lines (splitlines content)) ++ [MsgSummaryHeader].

(** Its output from the category loop to the last prompt. *)
Definition report_body (content : string) (budget : pyfloat) (today : date) : list event :=
  let expenses := parsed_lines (splitlines content) in
  let total_spent := sum_amounts expenses in
  let remaining := sub budget total_spent in
  category_lines (aggregate expenses) total_spent
  ++ [MsgTotalSpent total_spent; MsgRemaining remaining;
      MsgDaily (daily_allowance remaining (days_left_on today));
      Prompt AskShowPie].

(** The chart it asks for on request. *)
Definition report_pie (content : string) (budget : pyfloat) : event :=
  let expenses := parsed_lines (splitlines content) in
  pie_chart (aggregate expenses)
    (pct_of (sub budget (sum_amounts expenses)) budget) budget.

(** The slices of the chart as the claim words them: each category
    with its share of the total spent, and the remaining slice. *)
Definition claimed_slices (amount_by_cat : dict) (total_spent remaining_pct : pyfloat)
  : list (string * pyfloat) :=
  ((fun ca => (ca.1, pct_of ca.2 total_spent)) <$> amount_by_cat)
  ++ [("Remaining", remaining_pct)].

(** The chart drawn shows, in some order, the slices of the claim. *)
Definition pie_as_claimed (amount_by_cat : dict)
    (total_spent remaining_pct budget : pyfloat) : Prop :=
  forall w, exists labels sizes explode,
    visual_summary amount_by_cat total_spent remaining_pct budget w
    = (Ok tt, emit [PieChart labels sizes explode] w)
    /\ zip labels sizes ≡ₚ claimed_slices amount_by_cat total_spent remaining_pct.

(** The claim of C3 for one expense: after [save_expense], the records
    that the reading loop of [summarize] returns for the store include
    the expense. *)
Definition reads_back (exp : Expense) (path : string) (w : world) : Prop :=
  let w' := (save_expense exp path w).2 in
  exists c records w'',
    fs w' !! path = Some c
    /\ read_expenses c w' = (Ok records, w'')
    /\ exp ∈ records.

End Report.

(** *** Worlds used as examples *)

Module Cases.
Import PyStr PyFloat PyDate Effects Tracker.

Definition june_1 : date := mkDate 2025 6 1.

(** A store with the one row [2025-06-01,Coffee,50,Food]. *)
Definition coffee_world : world :=
  mkWorld {[ expense_file_for june_1 := "2025-06-01,Coffee,50,Food" +:+ String LF EmptyString ]}
    ["n"] [] june_1.

Definition nan_expense_world : world := mkWorld ∅ ["Coffee"; "nan"; "1"] [] june_1.

Definition nan_budget_world : world := mkWorld ∅ ["nan"] [] june_1.


End Cases.
(** *** Views of the loops, the dictionary and the files *)

Module Views.
Import PyStr PyFloat PyDate Effects Tracker Report.

(** The message by which an entry loop turns a line down; [None] for
    a line that it accepts. *)
Definition entry_reply (negative_msg : event) (l : string) : option event :=
  match float_of_string l with
  | Some x => if ltb x zero then Some negative_msg else None
  | None => Some MsgInvalidNumber
  end.

(** A text of the ASCII range, on which the helpers of [PyStr] are
    those of Python. *)
Definition ascii_text (s : string) : bool :=
  all_chars (fun c => (code c <? 128)%N) s.

(** The same for the category loop. *)
Definition choice_reply (l : string) : option event :=
  match int_of_string l with
  | Some i =>
      if ((0 <=? i - 1) && (i - 1 <? Z.of_nat (length EXPENSE_CATEGORIES)))%Z
      then None else Some MsgInvalidSelection
  | None => Some MsgEnterNumber
  end.

(** The amounts recorded under one category, in the order of the
    records, and their sum from the left. *)
Definition amounts_in (cat : string) (expenses : list Expense) : list pyfloat :=
  amount <$> filter (fun e => category e = cat) expenses.

Definition category_sum (cat : string) (expenses : list Expense) : pyfloat :=
  fold_left add (amounts_in cat expenses) zero.

(** The distinct elements of a list, in the order of their first
    occurrence. *)
Fixpoint first_seen (l : list string) : list string :=
  match l with
  | [] => []
  | x :: r => x :: filter (fun y => y <> x) (first_seen r)
  end.

(** An expense that a row of the store can hold: no comma and no line
    break in the description, a category of the catalog, and an
    amount that [str] and [float] carry over. *)
Definition storable (exp : Expense) : Prop :=
  all_chars (other_than ",") (name exp) = true
  /\ all_chars no_break (name exp) = true
  /\ category exp ∈ EXPENSE_CATEGORIES.*1
  /\ representable (amount exp).

(** The world after [save_expense] has run for each of the expenses
    in turn. *)
Definition after_saving (expenses : list Expense) (path : string) (w : world) : world :=
  foldl (fun w exp => (save_expense exp path w).2) w expenses.

(** A date of the calendar. *)
Definition valid_date (d : date) : Prop :=
  (1 <= month d <= 12)%nat
  /\ (1 <= day d <= days_in_month (year d) (month d))%nat.

(** A computation whose effect on the files stays within a relation,
    whatever it returns or raises. *)
Definition changes_by (R : relation (gmap string string)) {A} (m : M A) : Prop :=
  forall w, R (fs w) (fs (m w).2).

(** Only the file [path] may differ. *)
Definition same_but (path : string) (f f' : gmap string string) : Prop :=
  delete path f' = delete path f.

(** What a run of [main] on the day [today] may do to the files:
    nothing outside the two files of the month, nothing to a budget
    that is on file, and nothing but additions at the end of the
    store. *)
Definition month_files_only (today : date) (f f' : gmap string string) : Prop :=
  (forall p, p <> budget_file_for today -> p <> expense_file_for today ->
             f' !! p = f !! p)
  /\ (forall c, f !! budget_file_for today = Some c ->
                f' !! budget_file_for today = Some c)
  /\ (exists more,
        default EmptyString (f' !! expense_file_for today)
        = default EmptyString (f !! expense_file_for today) +:+ more).

End Views.

(** ** Part II: properties *)

(** *** Strings *)

Module StrFacts.
Import PyStr.

Lemma str_app_cons c (a b : string) : String c a +:+ b = String c (a +:+ b).
Proof. reflexivity. Qed.

Lemma str_app_nil_l (s : string) : EmptyString +:+ s = s.
Proof. reflexivity. Qed.

Lemma str_app_nil_r (s : string) : s +:+ EmptyString = s.
Proof. induction s as [|c s IH]; [done | by rewrite str_app_cons, IH]. Qed.

Lemma str_app_assoc (a b c : string) : (a +:+ b) +:+ c = a +:+ b +:+ c.
Proof. induction a as [|x a IH]; [done | by rewrite !str_app_cons, IH]. Qed.

Lemma str_length_app (a b : string) :
  String.length (a +:+ b) = (String.length a + String.length b)%nat.
Proof.
  induction a as [|x a IH]; [done |]. rewrite str_app_cons. simpl. by rewrite IH.
Qed.

Lemma is_empty_true (s : string) : is_empty s = true <-> s = EmptyString.
Proof. destruct s; simpl; split; congruence. Qed.

Lemma is_empty_app (a b : string) :
  is_empty (a +:+ b) = is_empty a && is_empty b.
Proof. by destruct a. Qed.

Lemma all_chars_app p (a b : string) :
  all_chars p (a +:+ b) = all_chars p a && all_chars p b.
Proof.
  induction a as [|x a IH]; rewrite ?str_app_cons, ?str_app_nil_l; simpl; [done |].
  by rewrite IH, andb_assoc.
Qed.

Lemma all_chars_impl (p q : ascii -> bool) (s : string) :
  (forall c, p c = true -> q c = true) ->
  all_chars p s = true -> all_chars q s = true.
Proof.
  intros Hpq. induction s as [|c s IH]; simpl; [done |].
  intros [Hc Hs]%andb_prop. rewrite (Hpq _ Hc). simpl. auto.
Qed.

Lemma all_chars_replicate p k c :
  p c = true -> all_chars p (replicate_char k c) = true.
Proof. intros Hc. induction k; simpl; [done |]. by rewrite Hc. Qed.

Lemma str_length_replicate k c : String.length (replicate_char k c) = k.
Proof. induction k; simpl; congruence. Qed.

(** **** take and drop *)

Lemma str_take_drop k (s : string) : take k s +:+ drop k s = s.
Proof.
  revert s. induction k as [|k IH]; intros [|c s]; simpl; try done.
  by rewrite str_app_cons, IH.
Qed.

Lemma str_length_take k (s : string) :
  String.length (take k s) = Nat.min k (String.length s).
Proof.
  revert s. induction k as [|k IH]; intros [|c s]; simpl; try done.
  by rewrite IH.
Qed.

Lemma str_length_drop k (s : string) :
  String.length (drop k s) = (String.length s - k)%nat.
Proof.
  revert s. induction k as [|k IH]; intros [|c s]; simpl; try done.
Qed.

Lemma all_chars_take p k (s : string) :
  all_chars p s = true -> all_chars p (take k s) = true.
Proof.
  intros H. rewrite <- (str_take_drop k s), all_chars_app in H.
  by apply andb_prop in H as [? _].
Qed.

Lemma all_chars_drop p k (s : string) :
  all_chars p s = true -> all_chars p (drop k s) = true.
Proof.
  intros H. rewrite <- (str_take_drop k s), all_chars_app in H.
  by apply andb_prop in H as [_ ?].
Qed.

(** **** strip *)

Lemma rstrip_by_id p (s : string) :
  all_chars (fun c => negb (p c)) s = true -> rstrip_by p s = s.
Proof.
  induction s as [|c s IH]; simpl; [done |].
  intros [Hc Hs]%andb_prop. rewrite (IH Hs).
  apply negb_true_iff in Hc. by rewrite Hc.
Qed.

Lemma rstrip_by_app p (a b : string) :
  rstrip_by p b <> EmptyString -> rstrip_by p (a +:+ b) = a +:+ rstrip_by p b.
Proof.
  intros Hb. induction a as [|c a IH]; rewrite ?str_app_cons, ?str_app_nil_l; [done |].
  simpl. rewrite IH. destruct (a +:+ rstrip_by p b) eqn:E.
  - destruct a; rewrite ?str_app_cons, ?str_app_nil_l in E; [done | discriminate].
  - simpl. by rewrite andb_false_r.
Qed.

Lemma lstrip_id c (s : string) :
  isspace c = false -> lstrip (String c s) = String c s.
Proof. intros H. simpl. by rewrite H. Qed.

(** A text that starts and ends with a character that is no white
    space is its own [strip]. *)
Lemma strip_id_ends c (a b : string) :
  isspace c = false -> rstrip b <> EmptyString -> rstrip b = b ->
  strip (String c (a +:+ b)) = String c (a +:+ b).
Proof.
  intros Hc Hb1 Hb2. unfold strip. rewrite lstrip_id by done.
  unfold rstrip in *.
  rewrite <- str_app_cons.
  rewrite rstrip_by_app by done. by rewrite Hb2.
Qed.

Lemma strip_id (s : string) :
  all_chars (fun c => negb (isspace c)) s = true -> strip s = s.
Proof.
  intros H. unfold strip, rstrip.
  destruct s as [|c s]; [done |].
  pose proof H as H'. simpl in H'. apply andb_prop in H' as [Hc _].
  apply negb_true_iff in Hc. rewrite lstrip_id by done.
  by apply rstrip_by_id.
Qed.

Lemma rstrip_by_all_true p (s : string) :
  all_chars p s = true -> rstrip_by p s = EmptyString.
Proof.
  induction s as [|c s IH]; [done |]. simpl.
  intros [Hc Hs]%andb_prop. by rewrite (IH Hs), Hc.
Qed.

Lemma rstrip_by_app_suffix p (a b : string) :
  all_chars p b = true -> rstrip_by p (a +:+ b) = rstrip_by p a.
Proof.
  intros Hb. induction a as [|c a IH]; rewrite ?str_app_cons, ?str_app_nil_l.
  - by apply rstrip_by_all_true.
  - simpl. by rewrite IH.
Qed.

(** The line feed that ends a row goes away with [strip]. *)
Lemma strip_line c (r : string) :
  isspace c = false ->
  strip (String c r +:+ String LF EmptyString) = strip (String c r).
Proof.
  intros Hc. unfold strip. rewrite str_app_cons, !lstrip_id by done.
  rewrite <- str_app_cons. unfold rstrip. by apply rstrip_by_app_suffix.
Qed.

(** **** cut and split *)

Lemma cut_none p (s : string) :
  all_chars (fun c => negb (p c)) s = true -> cut p s = (s, None).
Proof.
  induction s as [|c s IH]; simpl; [done |].
  intros [Hc Hs]%andb_prop. apply negb_true_iff in Hc.
  by rewrite Hc, (IH Hs).
Qed.

Lemma cut_app p (a : string) c (b : string) :
  all_chars (fun c => negb (p c)) a = true -> p c = true ->
  cut p (a +:+ String c b) = (a, Some b).
Proof.
  intros Ha Hc. induction a as [|x a IH]; rewrite ?str_app_cons, ?str_app_nil_l; simpl.
  - by rewrite Hc.
  - simpl in Ha. apply andb_prop in Ha as [Hx Ha].
    apply negb_true_iff in Hx. by rewrite Hx, (IH Ha).
Qed.

Lemma split_single sep (s : string) :
  all_chars (other_than sep) s = true -> split sep s = [s].
Proof.
  induction s as [|c s IH]; simpl; [done |].
  intros [Hc Hs]%andb_prop. apply negb_true_iff in Hc.
  by rewrite Hc, (IH Hs).
Qed.

Lemma split_app sep (a b : string) :
  all_chars (other_than sep) a = true ->
  split sep (a +:+ String sep b) = a :: split sep b.
Proof.
  intros Ha. induction a as [|x a IH]; rewrite ?str_app_cons, ?str_app_nil_l; simpl.
  - by rewrite Ascii.eqb_refl.
  - simpl in Ha. apply andb_prop in Ha as [Hx Ha].
    apply negb_true_iff in Hx. by rewrite Hx, (IH Ha).
Qed.

Lemma split_nonempty sep (s : string) : split sep s <> [].
Proof.
  induction s as [|c s IH]; simpl; [done |].
  destruct (Ascii.eqb c sep); [done |]. by destruct (split sep s).
Qed.

(** **** lines *)

Lemma splitlines_line (s : string) :
  all_chars no_break s = true ->
  splitlines (s +:+ String LF EmptyString) = [s].
Proof.
  induction s as [|c s IH]; rewrite ?str_app_cons, ?str_app_nil_l; simpl; [done |].
  intros [Hc Hs]%andb_prop. apply andb_prop in Hc as [H1 H2].
  apply negb_true_iff in H1, H2. by rewrite H1, H2, (IH Hs).
Qed.

Lemma splitlines_nonempty c (s : string) : splitlines (String c s) <> [].
Proof.
  simpl. destruct (Ascii.eqb c LF); [done |].
  destruct (Ascii.eqb c CR).
  - destruct s as [|c' s]; [done |]. by destruct (Ascii.eqb c' LF).
  - by destruct (splitlines s).
Qed.

Lemma splitlines_app_LF (s t : string) :
  splitlines ((s +:+ String LF EmptyString) +:+ t)
  = splitlines (s +:+ String LF EmptyString) ++ splitlines t.
Proof.
  remember (S (String.length s)) as n eqn:Hn.
  assert (Hlt : (String.length s < n)%nat) by lia. clear Hn.
  revert s Hlt. induction n as [|n IHn]; intros s Hlt; [lia |].
  assert (IH : forall s' : string, (String.length s' < String.length s)%nat ->
    splitlines ((s' +:+ String LF EmptyString) +:+ t)
    = splitlines (s' +:+ String LF EmptyString) ++ splitlines t).
  { intros s' Hs'. apply IHn. lia. }
  clear IHn.
  destruct s as [|c s]; [done |].
  rewrite !str_app_cons. cbn [splitlines].
  destruct (Ascii.eqb c LF) eqn:E1.
  { rewrite IH by (simpl; lia). done. }
  destruct (Ascii.eqb c CR) eqn:E2.
  { destruct s as [|c' s].
    - done.
    - rewrite !str_app_cons. destruct (Ascii.eqb c' LF) eqn:E3.
      + rewrite IH by (simpl; lia). done.
      + rewrite <- !str_app_cons. rewrite IH by (simpl; lia). done. }
  rewrite IH by (simpl; lia).
  destruct (splitlines (s +:+ String LF EmptyString)) eqn:E.
  - destruct s; rewrite ?str_app_cons, ?str_app_nil_l in E; [discriminate |].
    by apply splitlines_nonempty in E.
  - done.
Qed.

Lemma splitlines_app (s t : string) :
  terminated s -> splitlines (s +:+ t) = splitlines s ++ splitlines t.
Proof.
  intros [-> | [s' ->]]; [done |]. apply splitlines_app_LF.
Qed.

End StrFacts.

(** *** Decimal digits *)

Module DigitFacts.
Import PyStr StrFacts.

Lemma code_digit_char d : (d < 10)%N -> code (digit_char d) = (48 + d)%N.
Proof.
  intros Hd. unfold code, digit_char. apply N_ascii_embedding. lia.
Qed.

Lemma isdigit_digit_char d : (d < 10)%N -> isdigit (digit_char d) = true.
Proof.
  intros Hd. unfold isdigit. rewrite code_digit_char by done.
  apply andb_true_intro; split; apply N.leb_le; lia.
Qed.

Lemma digit_val_digit_char d : (d < 10)%N -> digit_val (digit_char d) = Some d.
Proof.
  intros Hd. unfold digit_val. rewrite isdigit_digit_char by done.
  rewrite code_digit_char by done. f_equal. lia.
Qed.

Lemma digit_val_isdigit c : isdigit c = true -> exists d, digit_val c = Some d /\ (d < 10)%N.
Proof.
  intros H. unfold digit_val. rewrite H. eexists; split; [done |].
  unfold isdigit in H. apply andb_prop in H as [H1 H2].
  apply N.leb_le in H1, H2. lia.
Qed.

Lemma digits_val_app (a b : string) acc :
  digits_val (a +:+ b) acc = digits_val a acc ≫= digits_val b.
Proof.
  revert acc. induction a as [|c a IH]; intros acc; [done |].
  rewrite str_app_cons. simpl. destruct (digit_val c); [apply IH | done].
Qed.

(** A run of digits read after a prefix shifts the prefix. *)
Lemma digits_val_shift (s : string) acc :
  all_chars isdigit s = true ->
  exists v, digits_val s 0 = Some v /\
    digits_val s acc = Some (acc * 10 ^ N.of_nat (String.length s) + v)%N.
Proof.
  revert acc. induction s as [|c s IH]; intros acc Hs.
  - exists 0%N. simpl. split; [done |]. f_equal. lia.
  - simpl in Hs. apply andb_prop in Hs as [Hc Hs].
    destruct (digit_val_isdigit c Hc) as (d & Hd & Hlt).
    simpl digits_val. rewrite Hd.
    destruct (IH (0 * 10 + d)%N Hs) as (v & Hv & Hv1).
    destruct (IH (acc * 10 + d)%N Hs) as (v' & Hv' & Hv2).
    rewrite Hv in Hv'. injection Hv' as <-.
    eexists. split; [exact Hv1 |]. rewrite Hv2. f_equal.
    cbn [String.length]. rewrite Nat2N.inj_succ, N.pow_succ_r'. lia.
Qed.

Lemma digits_val_zeros k acc :
  digits_val (replicate_char k "0") acc = Some (acc * 10 ^ N.of_nat k)%N.
Proof.
  revert acc. induction k as [|k IH]; intros acc.
  - simpl. f_equal. lia.
  - cbn [replicate_char digits_val].
    change (digit_val "0") with (Some 0%N). cbv iota beta. rewrite IH. f_equal.
    rewrite Nat2N.inj_succ, N.pow_succ_r'. lia.
Qed.

Lemma digits_go_spec fuel n (acc : string) :
  (n < 2 ^ N.of_nat fuel)%N ->
  exists ds, digits_go fuel n acc = ds +:+ acc /\
    all_chars isdigit ds = true /\ ds <> EmptyString /\
    forall a, digits_val ds a = Some (a * 10 ^ N.of_nat (String.length ds) + n)%N.
Proof.
  revert n acc. induction fuel as [|fuel IH]; intros n acc Hn.
  - assert (n = 0%N) as -> by (simpl in Hn; lia).
    exists "0". repeat split; try done.
  - cbn [digits_go].
    assert (Hmod : (n mod 10 < 10)%N) by (apply N.mod_lt; lia).
    destruct (N.eqb_spec (n / 10) 0) as [Hz | Hnz].
    + exists (String (digit_char (n mod 10)) EmptyString).
      repeat split; try done.
      * simpl. by rewrite isdigit_digit_char.
      * intros a. simpl. rewrite digit_val_digit_char by done. f_equal.
        pose proof (N.div_mod n 10). lia.
    + destruct (IH (n / 10)%N (String (digit_char (n mod 10)) acc))
        as (ds & Hds & Hall & Hne & Hval).
      { rewrite Nat2N.inj_succ, N.pow_succ_r' in Hn.
        apply N.Div0.div_lt_upper_bound. lia. }
      exists (ds +:+ String (digit_char (n mod 10)) EmptyString).
      repeat split.
      * by rewrite Hds, str_app_assoc.
      * rewrite all_chars_app, Hall. simpl. by rewrite isdigit_digit_char.
      * destruct ds; [done | by rewrite str_app_cons].
      * intros a. rewrite digits_val_app, Hval. simpl.
        rewrite digit_val_digit_char by done. f_equal.
        rewrite str_length_app. simpl String.length.
        rewrite Nat2N.inj_add. change (N.of_nat 1) with 1%N.
        rewrite N.pow_add_r, N.pow_1_r.
        pose proof (N.div_mod n 10). lia.
Qed.

Lemma digits_spec n :
  all_chars isdigit (digits n) = true /\ digits n <> EmptyString /\
  forall a, digits_val (digits n) a
            = Some (a * 10 ^ N.of_nat (String.length (digits n)) + n)%N.
Proof.
  destruct (digits_go_spec (N.to_nat (N.size n)) n EmptyString) as (ds & Hds & H).
  { rewrite N2Nat.id. apply N.size_gt. }
  unfold digits. rewrite Hds, str_app_nil_r. exact H.
Qed.

Lemma digits_isdigit n : all_chars isdigit (digits n) = true.
Proof. apply digits_spec. Qed.

Lemma digits_nonempty n : digits n <> EmptyString.
Proof. apply digits_spec. Qed.

Lemma digits_val_digits n : digits_val (digits n) 0 = Some n.
Proof.
  destruct (digits_spec n) as (_ & _ & H). by rewrite H.
Qed.

Lemma zfill_eq w (s : string) :
  zfill w s = replicate_char (w - String.length s) "0" +:+ s.
Proof. reflexivity. Qed.

Lemma zfill_isdigit w (s : string) :
  all_chars isdigit s = true -> all_chars isdigit (zfill w s) = true.
Proof.
  intros H. rewrite zfill_eq, all_chars_app, H.
  by rewrite all_chars_replicate.
Qed.

Lemma length_zfill w (s : string) :
  String.length (zfill w s) = Nat.max w (String.length s).
Proof. rewrite zfill_eq, str_length_app, str_length_replicate. lia. Qed.

Lemma digits_val_zfill w (s : string) :
  digits_val (zfill w s) 0 = digits_val s 0.
Proof.
  rewrite zfill_eq, digits_val_app, digits_val_zeros. simpl.
  f_equal.
Qed.

(** Cutting trailing zeros leaves a prefix and counts the zeros. *)
Lemma rstrip_zeros (s : string) :
  exists t, s = rstrip_by (Ascii.eqb "0") s +:+ replicate_char t "0".
Proof.
  induction s as [|c s (t & IH)]; [by exists 0%nat |].
  cbn [rstrip_by]. destruct (Ascii.eqb_spec "0" c) as [<- | Hc]; cbn [andb].
  - destruct (rstrip_by (Ascii.eqb "0") s) eqn:E; cbn [is_empty].
    + exists (S t). rewrite str_app_nil_l in IH. rewrite str_app_nil_l.
      cbn [replicate_char]. by f_equal.
    + exists t. rewrite str_app_cons. by f_equal.
  - exists t. rewrite str_app_cons. by f_equal.
Qed.

End DigitFacts.

(** *** Floating-point values: text and back *)

Module FloatFacts.
Import PyStr StrFacts DigitFacts PyFloat.

(** **** The scaling loop of [str_of_float] *)

Lemma scale_loop_sound fuel : forall n d k n' k',
  (0 < d)%Z -> scale_loop fuel n d k = Some (n', k') ->
  (n' * d * 10 ^ Z.of_nat k = n * 10 ^ Z.of_nat k')%Z.
Proof.
  induction fuel as [|fuel IH]; intros n d k n' k' Hd; simpl.
  - destruct (Z.eqb_spec d 1) as [-> | _]; [| done].
    intros [= -> ->]. lia.
  - destruct (Z.eqb_spec d 1) as [-> | _]; [intros [= -> ->]; lia |].
    destruct (Z.eqb_spec (Z.gcd 10 d) 1) as [| Hg]; [done |].
    intros Hloop.
    pose proof (Z.gcd_nonneg 10 d) as Hg0.
    pose proof (Z.gcd_divide_l 10 d) as [t Ht].
    pose proof (Z.gcd_divide_r 10 d) as [d1 Hd1].
    set (g := Z.gcd 10 d) in *.
    assert (Hgpos : (0 < g)%Z).
    { destruct (Z.eq_dec g 0%Z) as [E | ?]; [rewrite E in Ht; lia | lia]. }
    assert (Ht' : (10 / g = t)%Z) by (rewrite Ht at 1; by apply Z.div_mul; lia).
    assert (Hd1' : (d / g = d1)%Z) by (rewrite Hd1 at 1; by apply Z.div_mul; lia).
    rewrite Ht', Hd1' in Hloop.
    apply IH in Hloop; [| nia].
    rewrite Nat2Z.inj_succ, Z.pow_succ_r in Hloop by lia.
    assert (Htpos : (0 < t)%Z) by nia.
    apply (Z.mul_cancel_l _ _ t); [lia |].
    rewrite Hd1. transitivity (n' * d1 * (t * g * 10 ^ Z.of_nat k))%Z; [ring |].
    rewrite <- Ht. rewrite Hloop. ring.
Qed.

Lemma coprime_divides_power d j :
  (0 < d)%Z -> Z.gcd 10 d = 1%Z -> (d | 10 ^ Z.of_nat j)%Z -> d = 1%Z.
Proof.
  intros Hd Hg. induction j as [|j IH].
  - intros H. apply Z.divide_1_r_nonneg in H; lia.
  - rewrite Nat2Z.inj_succ, Z.pow_succ_r by lia. intros H.
    apply IH. apply (Z.gauss _ 10); [done |]. by rewrite Z.gcd_comm.
Qed.

Lemma scale_loop_complete fuel : forall n d k j,
  (0 < d < 2 ^ Z.of_nat fuel)%Z -> (d | 10 ^ Z.of_nat j)%Z ->
  is_Some (scale_loop fuel n d k).
Proof.
  induction fuel as [|fuel IH]; intros n d k j Hd Hj; simpl.
  - assert (d = 1%Z) as -> by (simpl in Hd; lia). by eexists.
  - destruct (Z.eqb_spec d 1) as [-> | Hd1]; [by eexists |].
    destruct (Z.eqb_spec (Z.gcd 10 d) 1) as [Hg | Hg].
    { exfalso. apply Hd1. by apply (coprime_divides_power d j); [lia | |]. }
    pose proof (Z.gcd_nonneg 10 d) as Hg0.
    pose proof (Z.gcd_divide_r 10 d) as [d1 Hd1'].
    set (g := Z.gcd 10 d) in *.
    assert (Hgne : g <> 0%Z) by (intros E; rewrite E in Hd1'; lia).
    assert (Hq : (d / g = d1)%Z) by (rewrite Hd1' at 1; by apply Z.div_mul; lia).
    rewrite Hq. apply (IH _ _ _ j).
    + rewrite Nat2Z.inj_succ, Z.pow_succ_r in Hd by lia. nia.
    + destruct Hj as [x Hx]. exists (x * g)%Z. rewrite Hx, Hd1'. ring.
Qed.

(** **** Finite decimals *)

Lemma Qc_canonical (q : Qc) : Z.gcd (Qnum q) (Z.pos (Qden q)) = 1%Z.
Proof. apply Qred_iff. apply canon. Qed.

Lemma finite_decimal_intro (q : Qc) (z : Z) (j : nat) :
  (this q * inject_Z (10 ^ Z.of_nat j) == inject_Z z)%Q -> finite_decimal q.
Proof.
  intros H. exists j. destruct q as [[a d] Hc]. simpl in *.
  unfold Qeq in H. simpl in H.
  apply (Z.gauss _ a).
  - exists z. lia.
  - rewrite Z.gcd_comm. by apply Qred_iff in Hc.
Qed.

Lemma ten_pow_pos (j : nat) : (0 < 10 ^ Z.of_nat j)%Z.
Proof. apply Z.pow_pos_nonneg; lia. Qed.

Lemma Qpower_ten_nat (j : nat) :
  ((10 # 1) ^ Z.of_nat j == inject_Z (10 ^ Z.of_nat j))%Q.
Proof. symmetry. apply (Zpower_Qpower 10). lia. Qed.

Lemma Qpower_ten_neg (j : nat) :
  ((10 # 1) ^ (- Z.of_nat j) == / inject_Z (10 ^ Z.of_nat j))%Q.
Proof. by rewrite Qpower_opp, Qpower_ten_nat. Qed.

Lemma ten_neq_0 : ~ ((10 # 1) == 0)%Q.
Proof. done. Qed.

Lemma dec_value_finite_decimal neg n e : finite_decimal (dec_value neg n e).
Proof.
  unfold dec_value. set (z := (if neg then - Z.of_N n else Z.of_N n)%Z).
  destruct (Z.le_gt_cases 0 e) as [He | He].
  - apply (finite_decimal_intro _ (z * 10 ^ e) 0). simpl this.
    rewrite Qred_correct, Qmult_1_r, inject_Z_mult.
    rewrite <- (Zpower_Qpower 10) by done. reflexivity.
  - apply (finite_decimal_intro _ z (Z.to_nat (- e))). simpl this.
    rewrite Qred_correct.
    replace e with (- Z.of_nat (Z.to_nat (- e)))%Z at 1 by lia.
    rewrite Qpower_ten_neg. field.
    intros H. pose proof (ten_pow_pos (Z.to_nat (- e))) as Hp.
    unfold Qeq in H. simpl in H. lia.
Qed.

Lemma dec_value_eq (neg : bool) (N : N) (E : Z) (q : Qc) :
  (inject_Z (if neg then - Z.of_N N else Z.of_N N)%Z * (10 # 1) ^ E == this q)%Q ->
  dec_value neg N E = q.
Proof.
  intros H. unfold dec_value. apply Qc_is_canon. simpl.
  by rewrite Qred_correct.
Qed.

(** [n / 10^k] is the fraction [a / d] when [n * d = a * 10^k]. *)
Lemma scaled_fraction (n a : Z) (d : positive) (k : nat) :
  (n * Z.pos d = a * 10 ^ Z.of_nat k)%Z ->
  (inject_Z n * (10 # 1) ^ (- Z.of_nat k) == a # d)%Q.
Proof.
  intros H. rewrite Qpower_ten_neg.
  pose proof (ten_pow_pos k) as Hp.
  destruct (10 ^ Z.of_nat k)%Z as [|p|p] eqn:E; try lia.
  unfold Qeq. simpl. lia.
Qed.

(** **** Reading a decimal literal of known shape *)

Lemma isdigit_neq c x : isdigit x = false -> isdigit c = true -> Ascii.eqb c x = false.
Proof.
  intros Hx Hc. destruct (Ascii.eqb_spec c x) as [-> | ?]; congruence.
Qed.

Lemma digits_not_e (s : string) :
  all_chars isdigit s = true -> all_chars (fun c => negb (is_e c)) s = true.
Proof.
  apply all_chars_impl. intros c Hc. unfold is_e.
  by rewrite !(isdigit_neq c) by done.
Qed.

Lemma digits_not_dot (s : string) :
  all_chars isdigit s = true -> all_chars (fun c => negb (is_dot c)) s = true.
Proof.
  apply all_chars_impl. intros c Hc. unfold is_dot.
  by rewrite !(isdigit_neq c) by done.
Qed.

Lemma parse_decimal_shape (neg : bool) (ip : string) (fo ex : option string) :
  all_chars isdigit ip = true ->
  all_chars isdigit (default EmptyString fo) = true ->
  parse_decimal neg ((ip +:+ dot_part fo) +:+ exp_part ex)
  = e ← match ex with None => Some 0%Z | Some es => parse_exponent es end;
    if is_empty (ip +:+ default EmptyString fo) then None
    else n ← digits_val (ip +:+ default EmptyString fo) 0;
         Some (Fin (dec_value neg n (e - Z.of_nat (String.length (default EmptyString fo))))).
Proof.
  intros Hip Hfp. unfold parse_decimal.
  assert (Hm : all_chars (fun c => negb (is_e c)) (ip +:+ dot_part fo) = true).
  { rewrite all_chars_app, (digits_not_e ip Hip). destruct fo as [fp|]; [| done].
    simpl in *. by apply digits_not_e. }
  assert (Hcut : cut is_e ((ip +:+ dot_part fo) +:+ exp_part ex)
                 = (ip +:+ dot_part fo, ex)).
  { destruct ex as [es|]; simpl.
    - by apply cut_app.
    - rewrite str_app_nil_r. by apply cut_none. }
  rewrite Hcut.
  assert (Hdot : cut is_dot (ip +:+ dot_part fo) = (ip, fo)).
  { destruct fo as [fp|]; simpl.
    - apply cut_app; [by apply digits_not_dot | done].
    - rewrite str_app_nil_r. apply cut_none. by apply digits_not_dot. }
  by rewrite Hdot.
Qed.

Lemma str_take_all k (s : string) : (String.length s <= k)%nat -> take k s = s.
Proof.
  revert s. induction k as [|k IH]; intros [|c s]; simpl; try done; [lia |].
  intros H. rewrite IH; [done | lia].
Qed.

Lemma str_drop_all k (s : string) : (String.length s <= k)%nat -> drop k s = EmptyString.
Proof.
  revert s. induction k as [|k IH]; intros [|c s]; simpl; try done; [lia |].
  intros H. apply IH. lia.
Qed.

Lemma inject_Z_N_mul_pow (v : N) (t : nat) :
  (inject_Z (Z.of_N (v * 10 ^ N.of_nat t)) == inject_Z (Z.of_N v) * (10 # 1) ^ Z.of_nat t)%Q.
Proof.
  rewrite N2Z.inj_mul, N2Z.inj_pow, nat_N_Z, inject_Z_mult.
  change (Z.of_N 10) with 10%Z. by rewrite Qpower_ten_nat.
Qed.

Lemma pow_combine (x : Q) (a b c : Z) :
  (a + b = c)%Z -> (x * (10 # 1) ^ a * (10 # 1) ^ b == x * (10 # 1) ^ c)%Q.
Proof.
  intros <-. by rewrite <- Qmult_assoc, <- Qpower_plus by apply ten_neq_0.
Qed.

Lemma parse_positional neg n k : reads_as neg (positional n k) n k.
Proof.
  unfold reads_as, positional.
  set (s := zfill (S k) (digits n)).
  assert (Hs : all_chars isdigit s = true) by apply zfill_isdigit, digits_isdigit.
  assert (Hlen : (S k <= String.length s)%nat)
    by (unfold s; rewrite length_zfill; lia).
  assert (Hval : digits_val s 0 = Some n)
    by (unfold s; rewrite digits_val_zfill; apply digits_val_digits).
  set (w := (String.length s - k)%nat).
  assert (Hip : all_chars isdigit (take w s) = true) by by apply all_chars_take.
  change ("." +:+ ?x) with (String "." x).
  destruct k as [|k]; cbn [Nat.eqb].
  - pose proof (parse_decimal_shape neg (take w s) (Some "0") None Hip eq_refl) as H.
    cbn [dot_part exp_part default from_option id] in H. rewrite str_app_nil_r in H. rewrite H. clear H.
    rewrite is_empty_app, andb_false_r.
    rewrite str_take_all by (unfold w; lia).
    rewrite digits_val_app, Hval.
    change "0" with (replicate_char 1 "0").
    unfold mbind, option_bind. rewrite digits_val_zeros. unfold mbind, option_bind.
    rewrite str_length_replicate.
    eexists _, _. split; [reflexivity |].
    rewrite inject_Z_N_mul_pow. apply pow_combine. lia.
  - pose proof (parse_decimal_shape neg (take w s) (Some (drop w s)) None Hip
                  (all_chars_drop _ _ _ Hs)) as H.
    cbn [dot_part exp_part default from_option id] in H. rewrite str_app_nil_r in H. rewrite H. clear H.
    rewrite str_take_drop, Hval.
    assert (is_empty s = false) as -> by (destruct s; [simpl in Hlen; lia | done]).
    unfold mbind, option_bind. eexists _, _. split; [reflexivity |].
    rewrite str_length_drop. replace (String.length s - w)%nat with (S k) by (unfold w; lia).
    reflexivity.
Qed.

Lemma parse_exponent_printed (e : Z) :
  parse_exponent ((if (e <? 0)%Z then "-" else "+")
                  +:+ zfill 2 (digits (Z.to_N (Z.abs e)))) = Some e.
Proof.
  set (zf := zfill 2 (digits (Z.to_N (Z.abs e)))).
  assert (Hval : digits_val zf 0 = Some (Z.to_N (Z.abs e)))
    by (unfold zf; rewrite digits_val_zfill; apply digits_val_digits).
  assert (Hne : is_empty zf = false).
  { pose proof (length_zfill 2 (digits (Z.to_N (Z.abs e)))) as H. fold zf in H.
    destruct zf; [simpl in H; lia | done]. }
  unfold parse_exponent.
  destruct (Z.ltb_spec e 0) as [He | He].
  - change ("-" +:+ zf) with (String "-" zf). cbn [cut_sign].
    change (Ascii.eqb "-" "-") with true. cbv iota.
    rewrite Hne, Hval. unfold mbind, option_bind. f_equal. lia.
  - change ("+" +:+ zf) with (String "+" zf). cbn [cut_sign].
    change (Ascii.eqb "+" "-") with false. change (Ascii.eqb "+" "+") with true.
    cbv iota. rewrite Hne, Hval. unfold mbind, option_bind. f_equal. lia.
Qed.

Lemma parse_scientific neg n k : n <> 0%N -> reads_as neg (scientific n k) n k.
Proof.
  intros Hn. unfold reads_as, scientific.
  pose proof (digits_isdigit n) as Hds. pose proof (digits_val_digits n) as Hv.
  remember (digits n) as ds eqn:Eds. clear Eds.
  destruct (rstrip_zeros ds) as [t Ht].
  remember (rstrip_by (Ascii.eqb "0") ds) as sig eqn:Esig. clear Esig.
  subst ds. rewrite all_chars_app in Hds. apply andb_prop in Hds as [Hsig _].
  rewrite digits_val_app in Hv.
  destruct (digits_val sig 0) as [sv|] eqn:Hsv; [| done].
  unfold mbind, option_bind in Hv. rewrite digits_val_zeros in Hv.
  injection Hv as Hv.
  assert (Hm : (1 <= String.length sig)%nat).
  { destruct sig; [| simpl; lia]. simpl in Hsv. injection Hsv as <-. lia. }
  assert (Hne : is_empty sig = false) by (destruct sig; [simpl in Hm; lia | done]).
  rewrite str_length_app, str_length_replicate.
  set (m := String.length sig) in *.
  set (e := (Z.of_nat (m + t) - Z.of_nat k - 1)%Z).
  set (es := (if (e <? 0)%Z then "-" else "+") +:+ zfill 2 (digits (Z.to_N (Z.abs e)))).
  set (fo := if (m =? 1)%nat then None else Some (drop 1 sig)).
  assert (Hbody :
    take 1 sig +:+ (if (m =? 1)%nat then EmptyString else "." +:+ drop 1 sig) +:+ "e" +:+ es
    = (take 1 sig +:+ dot_part fo) +:+ exp_part (Some es)).
  { unfold fo. destruct (m =? 1)%nat; cbn [dot_part exp_part].
    - change ("e" +:+ es) with (String "e" es). by rewrite str_app_nil_l, str_app_nil_r.
    - change ("e" +:+ es) with (String "e" es).
      change ("." +:+ drop 1 sig) with (String "." (drop 1 sig)).
      by rewrite (str_app_assoc (take 1 sig)). }
  rewrite Hbody. clear Hbody.
  assert (Hfo : all_chars isdigit (default EmptyString fo) = true).
  { unfold fo. destruct (m =? 1)%nat; [done |]. by apply all_chars_drop. }
  rewrite (parse_decimal_shape neg (take 1 sig) fo (Some es)
             (all_chars_take _ _ _ Hsig) Hfo).
  unfold es at 1. rewrite parse_exponent_printed. unfold mbind at 1, option_bind.
  assert (Hwhole : take 1 sig +:+ default EmptyString fo = sig).
  { unfold fo. destruct (Nat.eqb_spec m 1) as [E | _]; cbn [default from_option id].
    - rewrite str_app_nil_r. apply str_take_all. unfold m in E. lia.
    - apply str_take_drop. }
  rewrite Hwhole, Hsv, Hne.
  unfold mbind, option_bind. eexists _, _. split; [reflexivity |].
  rewrite <- Hv, inject_Z_N_mul_pow. symmetry. apply pow_combine.
  unfold fo. destruct (Nat.eqb_spec m 1) as [E | _]; cbn [default from_option id].
  - simpl String.length. unfold e. lia.
  - rewrite str_length_drop. fold m. unfold e. lia.
Qed.

Lemma parse_repr_abs neg n k : reads_as neg (repr_abs n k) n k.
Proof.
  unfold repr_abs.
  destruct (N.eqb_spec n 0) as [-> | Hn]; cbn [orb].
  - apply parse_positional.
  - destruct (_ && _); [apply parse_positional | by apply parse_scientific].
Qed.

(** **** The characters of a printed value *)

Lemma numchar_plain c :
  numchar c = true ->
  isspace c = false /\ other_than "," c = true /\
  Ascii.eqb c "_" = false /\ no_break c = true.
Proof.
  destruct c as [[] [] [] [] [] [] [] []]; vm_compute; intuition congruence.
Qed.

Lemma isdigit_numchar c : isdigit c = true -> numchar c = true.
Proof. intros H. unfold numchar. by rewrite H. Qed.

Lemma digits_numchar (s : string) :
  all_chars isdigit s = true -> all_chars numchar s = true.
Proof. apply all_chars_impl, isdigit_numchar. Qed.

Lemma positional_numchar n k : all_chars numchar (positional n k) = true.
Proof.
  unfold positional. set (s := zfill (S k) (digits n)).
  assert (Hs : all_chars isdigit s = true) by apply zfill_isdigit, digits_isdigit.
  rewrite !all_chars_app.
  rewrite (digits_numchar _ (all_chars_take _ _ _ Hs)).
  destruct (k =? 0)%nat; [done |].
  by rewrite (digits_numchar _ (all_chars_drop _ _ _ Hs)).
Qed.

Lemma rstrip_by_all p q (s : string) :
  all_chars q s = true -> all_chars q (rstrip_by p s) = true.
Proof.
  induction s as [|c s IH]; [done |]. simpl.
  intros [Hc Hs]%andb_prop. destruct (_ && _); [done |].
  simpl. by rewrite Hc, IH.
Qed.

Lemma scientific_numchar n k : all_chars numchar (scientific n k) = true.
Proof.
  unfold scientific.
  assert (Hsig : all_chars isdigit (rstrip_by (Ascii.eqb "0") (digits n)) = true)
    by apply rstrip_by_all, digits_isdigit.
  set (sig := rstrip_by (Ascii.eqb "0") (digits n)) in *.
  rewrite !all_chars_app.
  rewrite (digits_numchar _ (all_chars_take _ _ _ Hsig)).
  rewrite (digits_numchar (zfill _ _)) by apply zfill_isdigit, digits_isdigit.
  assert (all_chars numchar
            (if (String.length sig =? 1)%nat then EmptyString else "." +:+ drop 1 sig) = true) as ->.
  { destruct (_ =? _)%nat; [done |]. rewrite all_chars_app.
    by rewrite (digits_numchar _ (all_chars_drop _ _ _ Hsig)). }
  by destruct (_ <? _)%Z.
Qed.

Lemma repr_abs_numchar n k : all_chars numchar (repr_abs n k) = true.
Proof.
  unfold repr_abs.
  destruct (_ || _); [apply positional_numchar | apply scientific_numchar].
Qed.

Lemma str_of_float_numchar x : all_chars numchar (str_of_float x) = true.
Proof.
  destruct x as [q | [] |]; try done. unfold str_of_float.
  rewrite all_chars_app. apply andb_true_intro. split.
  - by destruct (is_negQ q).
  - destruct (scale_loop _ _ _ _) as [[n k] |];
      [apply repr_abs_numchar | apply positional_numchar].
Qed.

Lemma numchar_no_space (s : string) :
  all_chars numchar s = true -> all_chars (fun c => negb (isspace c)) s = true.
Proof.
  apply all_chars_impl. intros c Hc.
  destruct (numchar_plain c Hc) as (-> & _). done.
Qed.

(** A printed float has no white space around it, no comma and no line
    break. *)
Lemma strip_str_of_float x : strip (str_of_float x) = str_of_float x.
Proof. apply strip_id, numchar_no_space, str_of_float_numchar. Qed.

Lemma str_of_float_no_comma x :
  all_chars (other_than ",") (str_of_float x) = true.
Proof.
  eapply all_chars_impl; [| apply str_of_float_numchar].
  intros c Hc. by destruct (numchar_plain c Hc) as (_ & -> & _).
Qed.

Lemma str_of_float_no_break x : all_chars no_break (str_of_float x) = true.
Proof.
  eapply all_chars_impl; [| apply str_of_float_numchar].
  intros c Hc. by destruct (numchar_plain c Hc) as (_ & _ & _ & ->).
Qed.

Lemma drop_underscores_id (s : string) b :
  all_chars numchar s = true -> drop_underscores b s = Some s.
Proof.
  revert b. induction s as [|c s IH]; intros b; [done |]. simpl.
  intros [Hc Hs]%andb_prop.
  destruct (numchar_plain c Hc) as (_ & _ & -> & _).
  by rewrite IH.
Qed.

(** **** The first character of a printed magnitude *)

Lemma starts_with_digit_app (s t : string) :
  starts_with_digit s -> starts_with_digit (s +:+ t).
Proof.
  intros (c & r & -> & Hc). exists c, (r +:+ t). by rewrite str_app_cons.
Qed.

Lemma starts_with_digit_take k (s : string) :
  (1 <= k)%nat -> s <> EmptyString -> all_chars isdigit s = true ->
  starts_with_digit (take k s).
Proof.
  intros Hk Hs Hd. destruct s as [|c r]; [done |].
  destruct k as [|k]; [lia |]. simpl in *.
  apply andb_prop in Hd as [Hc _]. by exists c, (take k r).
Qed.

Lemma positional_head n k : starts_with_digit (positional n k).
Proof.
  unfold positional. set (s := zfill (S k) (digits n)).
  assert (Hlen : (S k <= String.length s)%nat)
    by (unfold s; rewrite length_zfill; lia).
  apply starts_with_digit_app, starts_with_digit_take.
  - lia.
  - destruct s; [simpl in Hlen; lia | done].
  - apply zfill_isdigit, digits_isdigit.
Qed.

Lemma rstrip_by_nil p (s : string) :
  rstrip_by p s = EmptyString -> all_chars p s = true.
Proof.
  induction s as [|c s IH]; [done |]. simpl.
  destruct (p c) eqn:Hc; simpl; [| done].
  destruct (rstrip_by p s); [auto | done].
Qed.

Lemma scientific_head n k : n <> 0%N -> starts_with_digit (scientific n k).
Proof.
  intros Hn. unfold scientific.
  apply starts_with_digit_app, starts_with_digit_take; [lia | |].
  - intros E. apply rstrip_by_nil in E.
    pose proof (digits_val_digits n) as Hv.
    assert (Hz : forall s a, all_chars (Ascii.eqb "0") s = true ->
                digits_val s a = Some (a * 10 ^ N.of_nat (String.length s))%N).
    { clear. induction s as [|c s IH]; intros a; cbn [all_chars digits_val String.length].
      - intros _. f_equal. lia.
      - intros [Hc Hs]%andb_prop. apply Ascii.eqb_eq in Hc as <-.
        change (digit_val "0") with (Some 0%N). cbv iota. rewrite IH by done.
        f_equal. rewrite Nat2N.inj_succ, N.pow_succ_r'. lia. }
    rewrite Hz in Hv by done. injection Hv as Hv. lia.
  - apply rstrip_by_all, digits_isdigit.
Qed.

Lemma repr_abs_head n k : starts_with_digit (repr_abs n k).
Proof.
  unfold repr_abs.
  destruct (N.eqb_spec n 0) as [-> | Hn]; cbn [orb].
  - apply positional_head.
  - destruct (_ && _); [apply positional_head | by apply scientific_head].
Qed.

(** **** [float] of a printed value *)

Lemma lower_char_digit c : isdigit c = true -> lower_char c = c.
Proof.
  unfold isdigit, lower_char. intros [H1 H2]%andb_prop.
  apply N.leb_le in H1, H2.
  destruct (N.leb_spec 65 (code c)); [lia | done].
Qed.

Lemma float_of_string_signed (neg : bool) (body : string) :
  all_chars numchar body = true -> starts_with_digit body ->
  float_of_string ((if neg then "-" else EmptyString) +:+ body) = parse_decimal neg body.
Proof.
  intros Hall (c & r & -> & Hc). unfold float_of_string.
  set (S := (if neg then "-" else EmptyString) +:+ String c r).
  assert (HS : all_chars numchar S = true).
  { unfold S. rewrite all_chars_app, Hall. by destruct neg. }
  rewrite (strip_id S) by by apply numchar_no_space.
  rewrite (drop_underscores_id S false HS). unfold mbind, option_bind.
  assert (Hcut : cut_sign S = (neg, String c r)).
  { unfold S. destruct neg.
    - done.
    - rewrite str_app_nil_l. unfold cut_sign.
      by rewrite !(isdigit_neq c). }
  rewrite Hcut. cbn [lower]. rewrite (lower_char_digit c Hc).
  rewrite !bool_decide_eq_false_2; [done | | |];
    intros [= -> _]; discriminate Hc.
Qed.

Lemma is_negQ_spec (q : Qc) : is_negQ q = (Qnum q <? 0)%Z.
Proof.
  unfold is_negQ. destruct (Z.ltb_spec (Qnum q) 0) as [H | H].
  - apply bool_decide_eq_true_2. unfold Qclt, Qlt. simpl. lia.
  - apply bool_decide_eq_false_2. unfold Qclt, Qlt. simpl. lia.
Qed.

(** Printing a representable value and reading the text gives the
    value back. *)
Theorem float_of_string_str_of_float (x : pyfloat) :
  representable x -> float_of_string (str_of_float x) = Some x.
Proof.
  destruct x as [q | [] |]; [| done | done | done].
  intros [j Hj]. unfold str_of_float.
  set (a := Z.abs (Qnum q)). set (d := Z.pos (Qden q)) in *.
  destruct (scale_loop_complete (S (Z.to_nat (Z.log2 d))) a d 0 j) as [[n k] Hloop];
    [| done |].
  { split; [done |]. rewrite Nat2Z.inj_succ, Z2Nat.id by apply Z.log2_nonneg.
    apply Z.log2_spec. done. }
  rewrite Hloop.
  pose proof (scale_loop_sound _ _ _ _ _ _ (eq_refl : (0 < d)%Z) Hloop) as Hs.
  change (Z.of_nat 0) with 0%Z in Hs. rewrite Z.pow_0_r, Z.mul_1_r in Hs.
  assert (Hn : (0 <= n)%Z).
  { pose proof (ten_pow_pos k). assert (0 <= a)%Z by (unfold a; lia).
    assert (0 < d)%Z by done. nia. }
  rewrite float_of_string_signed by (apply repr_abs_numchar || apply repr_abs_head).
  destruct (parse_repr_abs (is_negQ q) (Z.to_N n) k) as (m & e & -> & Heq).
  do 2 f_equal. apply dec_value_eq.
  rewrite Z2N.id in Heq by done.
  rewrite (scaled_fraction n a (Qden q) k Hs) in Heq.
  rewrite is_negQ_spec. clear Hloop. destruct q as [[qn qd] Hc]. simpl in *.
  destruct (Z.ltb_spec qn 0) as [Hneg | Hpos].
  - rewrite inject_Z_opp.
    assert (E : (- inject_Z (Z.of_N m) * (10 # 1) ^ e
                 == - (inject_Z (Z.of_N m) * (10 # 1) ^ e))%Q) by ring.
    rewrite E, Heq. unfold a, Qeq. simpl. lia.
  - rewrite Heq. unfold a, Qeq. simpl. lia.
Qed.

Lemma parse_decimal_representable neg u x :
  parse_decimal neg u = Some x -> representable x.
Proof.
  unfold parse_decimal. destruct (cut is_e u) as [mant ex].
  destruct (match ex with None => _ | Some es => _ end) as [e|]; [| done].
  unfold mbind at 1, option_bind. destruct (cut is_dot mant) as [ip fo].
  destruct (is_empty _); [done |].
  destruct (digits_val _ _) as [n|]; [| done].
  intros [= <-]. apply dec_value_finite_decimal.
Qed.

(** Every value that [float] returns is representable. *)
Theorem float_of_string_representable (s : string) (x : pyfloat) :
  float_of_string s = Some x -> representable x.
Proof.
  unfold float_of_string.
  destruct (drop_underscores false (strip s)) as [t|]; [| done].
  unfold mbind, option_bind. destruct (cut_sign t) as [neg u].
  destruct (_ || _); [by intros [= <-] |].
  destruct (bool_decide _); [by intros [= <-] |].
  apply parse_decimal_representable.
Qed.

(** What the program writes for a value it has read, it reads back as
    the same value. *)
Corollary float_roundtrip (s : string) (x : pyfloat) :
  float_of_string s = Some x ->
  float_of_string (strip (str_of_float x)) = Some x.
Proof.
  intros H. rewrite strip_str_of_float.
  by apply float_of_string_str_of_float, (float_of_string_representable s).
Qed.

End FloatFacts.

(** *** Arithmetic of [pyfloat] *)

Module ArithFacts.
Import PyFloat.





Lemma sub_zero_zero : sub zero zero = zero.
Proof. unfold sub. by apply Qc_is_canon || (f_equal; by apply Qc_is_canon). Qed.

Lemma truthy_zero : truthy zero = false.
Proof. done. Qed.

Lemma truthy_false x : truthy x = false -> x = zero.
Proof.
  destruct x as [q | |]; simpl; try done.
  intros H. apply negb_false_iff, bool_decide_eq_true_1 in H. by subst.
Qed.

Lemma truthy_of_Z z : truthy (of_Z z) = negb (z =? 0)%Z.
Proof.
  unfold truthy, of_Z. f_equal.
  destruct (Z.eqb_spec z 0) as [-> | Hz].
  - by apply bool_decide_eq_true_2.
  - apply bool_decide_eq_false_2. intros E.
    apply Q2Qc_eq_iff in E. unfold Qeq in E. simpl in E. lia.
Qed.

Lemma div_is_Some x y : truthy y = true -> is_Some (div x y).
Proof. intros H. unfold div. rewrite H. by eexists. Qed.

Lemma div_zero x : div x zero = None.
Proof. done. Qed.

Lemma div_None x y : div x y = None <-> truthy y = false.
Proof. unfold div. destruct (truthy y); split; done. Qed.

Lemma div_zero_of_Z z : z <> 0%Z -> div zero (of_Z z) = Some zero.
Proof.
  intros Hz. unfold div. rewrite truthy_of_Z.
  destruct (Z.eqb_spec z 0) as [? | _]; [done |]. cbn [negb].
  change zero with (Fin 0%Qc). unfold of_Z.
  do 2 f_equal. unfold Qcdiv. apply Qcmult_0_l.
Qed.

End ArithFacts.

(** *** Effects *)

Module EffectFacts.
Import PyStr PyFloat PyDate Effects.

Lemma bind_run {A B} (m : M A) (k : A -> M B) (w : world) :
  (m ≫= k) w = match m w with
               | (Ok a, w') => k a w'
               | (Raise e, w') => (Raise e, w')
               end.
Proof. reflexivity. Qed.

Lemma ret_run {A} (a : A) (w : world) : (mret a : M A) w = (Ok a, w).
Proof. reflexivity. Qed.

Lemma raise_run {A} e (w : world) : (raise e : M A) w = (Raise e, w).
Proof. reflexivity. Qed.

Lemma print_run e (w : world) : print e w = (Ok tt, emit [e] w).
Proof. reflexivity. Qed.

Lemma emit_nil w : emit [] w = w.
Proof. destruct w. unfold emit. simpl. by rewrite app_nil_r. Qed.

Lemma emit_emit es es' w : emit es' (emit es w) = emit (es ++ es') w.
Proof. unfold emit. simpl. by rewrite app_assoc. Qed.

Ltac mrun :=
  repeat progress
    (cbv beta iota; rewrite ?bind_run, ?ret_run, ?print_run, ?raise_run).

Lemma keeps_ret {A} (a : A) : keeps_files (mret a : M A).
Proof. done. Qed.

Lemma keeps_raise {A} e : keeps_files (raise e : M A).
Proof. done. Qed.

Lemma keeps_bind {A B} (m : M A) (k : A -> M B) :
  keeps_files m -> (forall a, keeps_files (k a)) -> keeps_files (m ≫= k).
Proof.
  intros Hm Hk w. rewrite bind_run. specialize (Hm w).
  destruct (m w) as [[a | e] w']; simpl in *; [| done].
  by rewrite Hk.
Qed.

Lemma keeps_print e : keeps_files (print e).
Proof. done. Qed.

Lemma keeps_input p : keeps_files (input p).
Proof. intros w. unfold input. by destruct (stdin w). Qed.

Lemma keeps_path_exists p : keeps_files (path_exists p).
Proof. done. Qed.

Lemma keeps_read_text p : keeps_files (read_text p).
Proof. intros w. unfold read_text. by destruct (fs w !! p). Qed.

Lemma keeps_size_is_zero p : keeps_files (size_is_zero p).
Proof. apply keeps_bind; [apply keeps_read_text | intros; apply keeps_ret]. Qed.

Lemma keeps_date_today : keeps_files date_today.
Proof. done. Qed.

Lemma keeps_py_float s : keeps_files (py_float s).
Proof. unfold py_float. by destruct (float_of_string s). Qed.

Lemma keeps_py_div x y : keeps_files (py_div x y).
Proof. unfold py_div. by destruct (div x y). Qed.

Lemma keeps_for_each {A S} (l : list A) (s : S) (f : A -> S -> M S) :
  (forall x s, keeps_files (f x s)) -> keeps_files (for_each l s f).
Proof.
  intros Hf. revert s. induction l as [|x l IH]; intros s; simpl.
  - apply keeps_ret.
  - apply keeps_bind; [apply Hf | apply IH].
Qed.

Create HintDb keeps discriminated.
#[export] Hint Resolve keeps_ret keeps_raise keeps_print keeps_input
  keeps_path_exists keeps_read_text keeps_size_is_zero keeps_date_today
  keeps_py_float keeps_py_div : keeps.

Ltac keeps_step :=
  first
    [ apply keeps_bind; [| intros ?]
    | apply keeps_for_each; intros ? ?
    | solve [auto with keeps]
    | match goal with
      | |- keeps_files (if ?b then _ else _) => destruct b
      | |- keeps_files (match ?x with _ => _ end) => destruct x
      | |- keeps_files (let '(_, _) := ?x in _) => destruct x
      | |- keeps_files ?m =>
          match m with
          | context [match ?x with _ => _ end] => is_var x; destruct x; cbv beta iota
          end
      end ].

End EffectFacts.

(** *** The loops of [summarize] and its runs *)

Module TrackerFacts.
Import PyStr PyFloat PyDate Effects Tracker.
Import Report.
Import StrFacts DigitFacts FloatFacts ArithFacts EffectFacts.

Lemma read_loop (lines : list string) : forall (acc : list Expense) (w : world),
  for_each lines acc
    (fun line expenses =>
       match parse_line line with
       | Some exp => mret (expenses ++ [exp])
       | None => print (MsgSkipping (strip line));; mret expenses
       end) w
  = (Ok (acc ++ parsed_lines lines), emit (MsgSkipping <$> skipped_lines lines) w).
Proof.
  induction lines as [|l lines IH]; intros acc w.
  - simpl. by rewrite app_nil_r, emit_nil.
  - cbn [for_each]. rewrite bind_run.
    unfold parsed_lines, skipped_lines in *. cbn [omap list_omap].
    rewrite filter_cons.
    destruct (parse_line l) as [exp|] eqn:E.
    + rewrite decide_False by done. rewrite ret_run, IH.
      by rewrite <- app_assoc.
    + rewrite decide_True by done. rewrite bind_run, print_run, ret_run, IH.
      by rewrite emit_emit.
Qed.

(** The reading loop returns the records of the lines that parse and
    prints one warning for each of the others; it raises nothing. *)
Lemma read_expenses_run (content : string) (w : world) :
  read_expenses content w
  = (Ok (parsed_lines (splitlines content)),
     emit (MsgSkipping <$> skipped_lines (splitlines content)) w).
Proof. unfold read_expenses. by rewrite read_loop. Qed.

Lemma pct_of_falsy amt base : truthy base = false -> pct_of amt base = zero.
Proof. intros H. unfold pct_of. by rewrite (proj2 (div_None amt base) H). Qed.

Lemma category_loop_run (amount_by_cat : dict) (total_spent budget : pyfloat) :
  forall w : world,
  for_each amount_by_cat tt
    (fun '(cat, amt) _ =>
       pct ← (if truthy total_spent
              then q ← py_div amt budget; mret (mul q hundred)
              else mret zero);
       pct ← (if truthy total_spent
              then q ← py_div amt total_spent; mret (mul q hundred)
              else mret zero);
       print (MsgCategoryLine (emoji_of cat) cat amt pct)) w
  = if divides_by_zero_budget amount_by_cat total_spent budget
    then (Raise ZeroDivisionError, w)
    else (Ok tt, emit (category_lines amount_by_cat total_spent) w).
Proof.
  unfold divides_by_zero_budget.
  destruct (truthy total_spent) eqn:Ht; cbn [andb].
  - destruct (truthy budget) eqn:Hb; cbn [andb negb].
    + induction amount_by_cat as [|[cat amt] d IH]; intros w.
      * simpl. by rewrite emit_nil.
      * cbn [for_each]. rewrite bind_run.
        destruct (div_is_Some amt budget Hb) as [q1 Hq1].
        destruct (div_is_Some amt total_spent Ht) as [q2 Hq2].
        unfold py_div. rewrite !bind_run, Hq1, !ret_run, !bind_run, Hq2, !ret_run.
        rewrite print_run, IH, emit_emit.
        unfold category_lines. cbn [fmap list_fmap app]. unfold pct_of. by rewrite Hq2.
    + intros w. destruct amount_by_cat as [|[cat amt] d]; [by rewrite emit_nil |].
      cbn [for_each]. rewrite bind_run. unfold py_div.
      pose proof (proj2 (div_None amt budget) Hb) as Hd.
      rewrite !bind_run. by rewrite Hd.
  - induction amount_by_cat as [|[cat amt] d IH]; intros w.
    + simpl. by rewrite emit_nil.
    + cbn [for_each]. cbv beta iota.
      rewrite !bind_run, !ret_run. cbv beta iota.
      rewrite !bind_run, !ret_run. cbv beta iota.
      rewrite print_run, IH, emit_emit.
      unfold category_lines. cbn [fmap list_fmap app]. by rewrite pct_of_falsy.
Qed.

Lemma visual_loop_run (budget : pyfloat) (amount_by_cat : dict) :
  forall (labels : list string) (sizes explode : list pyfloat) (w : world),
  for_each amount_by_cat (labels, sizes, explode)
    (fun '(cat, amt) '(labels, sizes, explode) =>
       percent ← (if truthy budget
                  then q ← py_div amt budget; mret (mul q hundred)
                  else mret zero);
       mret (labels ++ [cat], sizes ++ [percent], explode ++ [zero])) w
  = (Ok (labels ++ amount_by_cat.*1,
         sizes ++ ((fun ca => pct_of ca.2 budget) <$> amount_by_cat),
         explode ++ ((fun _ => zero) <$> amount_by_cat)), w).
Proof.
  induction amount_by_cat as [|[cat amt] d IH]; intros labels sizes explode w.
  - simpl. by rewrite !app_nil_r.
  - cbn [for_each]. rewrite bind_run.
    destruct (truthy budget) eqn:Hb.
    + destruct (div_is_Some amt budget Hb) as [q Hq].
      unfold py_div. rewrite !bind_run, Hq, !ret_run, IH.
      unfold pct_of. cbn [fmap list_fmap snd]. rewrite Hq. by rewrite <- !app_assoc.
    + mrun. rewrite IH. cbn [fmap list_fmap snd].
      rewrite pct_of_falsy by done. by rewrite <- !app_assoc.
Qed.

(** In the embedding, where the drawing library is not represented,
    [visual_summary] hands over one chart and returns. *)
Lemma visual_summary_run amount_by_cat total_spent remaining_percent budget w :
  visual_summary amount_by_cat total_spent remaining_percent budget w
  = (Ok tt, emit [pie_chart amount_by_cat remaining_percent budget] w).
Proof.
  unfold visual_summary. rewrite bind_run, visual_loop_run. reflexivity.
Qed.

Lemma pct_run amt base w :
  (if truthy base then q ← py_div amt base; mret (mul q hundred) else mret zero) w
  = (Ok (pct_of amt base), w).
Proof.
  destruct (truthy base) eqn:Hb.
  - destruct (div_is_Some amt base Hb) as [q Hq].
    unfold py_div, pct_of. rewrite bind_run, Hq. reflexivity.
  - by rewrite pct_of_falsy.
Qed.

Lemma daily_run remaining days_left w :
  (if negb (days_left =? 0)%Z then py_div remaining (of_Z days_left) else mret zero) w
  = (Ok (daily_allowance remaining days_left), w).
Proof.
  unfold daily_allowance, py_div.
  destruct (Z.eqb_spec days_left 0) as [-> | Hd]; cbn [negb].
  - by rewrite div_zero.
  - destruct (div_is_Some remaining (of_Z days_left)) as [q ->]; [| done].
    rewrite truthy_of_Z. by destruct (Z.eqb_spec days_left 0).
Qed.

Lemma path_exists_run path w :
  path_exists path w = (Ok (bool_decide (is_Some (fs w !! path))), w).
Proof. reflexivity. Qed.

Lemma read_text_run path w c :
  fs w !! path = Some c -> read_text path w = (Ok c, w).
Proof. intros H. unfold read_text. by rewrite H. Qed.

Lemma input_run p w :
  input p w = match stdin w with
              | l :: rest => (Ok l, set_stdin rest (emit [Prompt p] w))
              | [] => (Raise EOFError, emit [Prompt p] w)
              end.
Proof. reflexivity. Qed.

(** What [summarize] does on a store that is there and not empty.
    (After a yes to the last question the outcome is that of the
    embedding, in which the chart is an event.) *)
Lemma summarize_run (path : string) (budget : pyfloat) (w : world) (content : string) :
  fs w !! path = Some content -> content <> EmptyString ->
  let expenses := parsed_lines (splitlines content) in
  summarize path budget w =
    if divides_by_zero_budget (aggregate expenses) (sum_amounts expenses) budget
    then (Raise ZeroDivisionError,
          mkWorld (fs w) (stdin w) (stdout w ++ report_head content) (clock w))
    else
      let out := stdout w ++ report_head content ++ report_body content budget (clock w) in
      match stdin w with
      | [] => (Raise EOFError, mkWorld (fs w) [] out (clock w))
      | ans :: rest =>
          (Ok tt,
           mkWorld (fs w) rest
             (if says_yes ans then out ++ [report_pie content budget] else out)
             (clock w))
      end.
Proof.
  intros Hfile Hne expenses. unfold summarize.
  rewrite bind_run, path_exists_run.
  rewrite bool_decide_eq_true_2 by (by rewrite Hfile).
  rewrite bind_run. unfold size_is_zero.
  rewrite bind_run, (read_text_run _ _ _ Hfile), ret_run.
  assert (is_empty content = false) as -> by by destruct content.
  cbn [negb orb]. cbv iota.
  rewrite bind_run, (read_text_run _ _ _ Hfile).
  rewrite bind_run, read_expenses_run. fold expenses.
  rewrite bind_run, pct_run.
  rewrite bind_run, print_run.
  rewrite bind_run, category_loop_run.
  destruct (divides_by_zero_budget _ _ _).
  { unfold report_head. rewrite emit_emit. reflexivity. }
  rewrite bind_run, print_run, bind_run, print_run.
  rewrite bind_run. unfold date_today at 1. cbv beta iota.
  rewrite bind_run, daily_run.
  rewrite bind_run, print_run.
  rewrite bind_run, input_run.
  rewrite !emit_emit.
  unfold report_head, report_body, report_pie. fold expenses.
  destruct w as [files inp out today]. cbn [stdin emit fs stdout clock].
  destruct inp as [|ans rest].
  - f_equal. f_equal. rewrite <- ?app_assoc. reflexivity.
  - destruct (says_yes ans).
    + rewrite visual_summary_run. unfold emit, set_stdin.
      cbn [stdin emit fs stdout clock].
      f_equal. f_equal. rewrite <- ?app_assoc. reflexivity.
    + rewrite ret_run. unfold set_stdin. cbn [stdin emit fs stdout clock].
      f_equal. f_equal. rewrite <- ?app_assoc. reflexivity.
Qed.

(** On a store that is absent or empty it reports so and stops. *)
Lemma summarize_nothing (path : string) (budget : pyfloat) (w : world) :
  fs w !! path = None \/ fs w !! path = Some EmptyString ->
  summarize path budget w = (Ok tt, emit [MsgNoExpenses] w).
Proof.
  intros H. unfold summarize. rewrite bind_run, path_exists_run.
  destruct H as [H | H].
  - rewrite bool_decide_eq_false_2 by (rewrite H; by intros [? ?]).
    by rewrite bind_run, ret_run.
  - rewrite bool_decide_eq_true_2 by (by rewrite H).
    rewrite bind_run. unfold size_is_zero.
    by rewrite bind_run, (read_text_run _ _ _ H), ret_run.
Qed.

End TrackerFacts.

(** ** Part III: the claims of the specification *)

Module Claims.
Import PyStr PyFloat PyDate Effects Tracker.
Import Report Cases.
Import StrFacts DigitFacts FloatFacts ArithFacts EffectFacts TrackerFacts.

(** **** Totals per category *)






(** **** Files *)

(** C10. [summarize] leaves every file as it was, whatever it prints,
    reads or raises: the expense store and the budget store have the
    same content before and after. *)
Theorem summarize_keeps_files (expense_path : string) (budget : pyfloat) (w : world) :
  fs (summarize expense_path budget w).2 = fs w.
Proof.
  revert w. change (keeps_files (summarize expense_path budget)).
  unfold summarize, visual_summary, read_expenses. repeat keeps_step.
Qed.

(** **** The pie chart *)

(** Closed equalities between values are settled by the decision
    procedure. *)
Ltac by_decide :=
  match goal with
  | |- ?P => apply (bool_decide_eq_true_1 P); vm_compute; reflexivity
  end.

(** C2, as stated, fails: with 50 spent on Food out of a budget of 200
    the Food slice is 25 (its share of the budget), not 100 (its share
    of the spending). *)
Lemma pie_not_spending_relative :
  ~ pie_as_claimed [("Food", of_Z 50)] (of_Z 50) (of_Z 75) (of_Z 200).
Proof.
  intros H. destruct (H (empty_world (mkDate 2025 6 1))) as (labels & sizes & explode & Hrun & Hperm).
  rewrite visual_summary_run in Hrun.
  unfold pie_chart, emit in Hrun. cbn [stdout app fmap list_fmap fst snd] in Hrun.
  injection Hrun as <- <- _.
  assert (Hin : ("Food", pct_of (of_Z 50) (of_Z 50))
                ∈ zip ["Remaining"; "Food"]
                    [of_Z 75; pct_of (of_Z 50) (of_Z 200)]).
  { rewrite Hperm. unfold claimed_slices. simpl. set_solver. }
  simpl in Hin. apply elem_of_cons in Hin as [Hin | Hin]; [discriminate |].
  apply elem_of_cons in Hin as [Hin | Hin]; [| by apply elem_of_nil in Hin].
  apply (f_equal (fun p => Qof p.2)) in Hin. vm_compute in Hin. discriminate.
Qed.

(** C2, amended. The one chart that [visual_summary] asks the drawing
    library for has first the Remaining slice, sized by the remaining
    percentage it is given, then one slice per category in the order
    of the dictionary, sized by the category's share of the budget
    ([amt / budget * 100], and 0 when the budget is 0); the total
    spent plays no part.  Nothing else happens to the console, and
    nothing to the files or the input.  Whether the library then
    draws the chart is no part of the statement: it refuses a
    negative size, which an overspent budget gives to the Remaining
    slice. *)
Theorem pie_is_budget_relative (amount_by_cat : dict)
    (total_spent remaining_percent budget : pyfloat) (w : world) :
  (visual_summary amount_by_cat total_spent remaining_percent budget w).2
  = emit [PieChart ("Remaining" :: amount_by_cat.*1)
            (remaining_percent :: ((fun ca => pct_of ca.2 budget) <$> amount_by_cat))
            (Fin (Q2Qc (6 # 100)) :: ((fun _ => zero) <$> amount_by_cat))] w.
Proof.
  unfold visual_summary. rewrite bind_run, visual_loop_run. reflexivity.
Qed.

(** **** Budget of zero *)

(** C1, at the failing input: with a budget of 0 and one expense of 50
    on record, [summarize] raises [ZeroDivisionError] (the first
    percentage of the category loop, line 196, divides by the budget
    whenever the total is not zero). *)
Theorem zero_budget_raises :
  (summarize (expense_file_for june_1) zero coffee_world).1 = Raise ZeroDivisionError.
Proof. vm_compute. reflexivity. Qed.

Lemma dict_set_nonempty (d : dict) k v : dict_set d k v <> [].
Proof. destruct d as [|[k' v'] d]; simpl; [done |]. by case_bool_decide. Qed.

Lemma aggregate_nonempty (expenses : list Expense) :
  expenses <> [] -> aggregate expenses <> [].
Proof.
  unfold aggregate. intros Hne.
  assert (H : forall l d, d <> [] ->
    fold_left (fun d exp =>
      dict_set d (category exp) (add (dict_get d (category exp) zero) (amount exp)))
      l d <> []).
  { induction l as [|e l IH]; intros d Hd; cbn [fold_left]; [done |].
    apply IH, dict_set_nonempty. }
  destruct expenses as [|e l]; [done |]. cbn [fold_left]. apply H, dict_set_nonempty.
Qed.

Lemma divides_iff_spent (expenses : list Expense) :
  divides_by_zero_budget (aggregate expenses) (sum_amounts expenses) zero
  = truthy (sum_amounts expenses).
Proof.
  unfold divides_by_zero_budget. rewrite truthy_zero. cbn [negb].
  rewrite andb_true_r. destruct (truthy (sum_amounts expenses)) eqn:Ht; [| done].
  destruct expenses as [|e l]; [done |].
  pose proof (aggregate_nonempty (e :: l)) as H.
  destruct (aggregate (e :: l)); [by exfalso; apply H | done].
Qed.

(** With a budget of 0, [summarize] on a store that is not empty either
    raises [ZeroDivisionError] before any category line, which happens
    exactly when the total spent is not zero, or prints 0 for every
    category percentage and for the daily allowance. *)
Lemma summarize_zero_budget (path : string) (w : world) (content : string) :
  fs w !! path = Some content -> content <> EmptyString ->
  let expenses := parsed_lines (splitlines content) in
  let r := summarize path zero w in
  if truthy (sum_amounts expenses)
  then r.1 = Raise ZeroDivisionError /\ stdout r.2 = stdout w ++ report_head content
  else r.1 <> Raise ZeroDivisionError /\
       exists rest,
         stdout r.2
         = stdout w ++ report_head content
           ++ ((fun ca => MsgCategoryLine (emoji_of ca.1) ca.1 ca.2 zero)
                 <$> aggregate expenses)
           ++ [MsgTotalSpent zero; MsgRemaining zero; MsgDaily zero; Prompt AskShowPie]
           ++ rest.
Proof.
  intros Hfile Hne expenses r. unfold r.
  rewrite (summarize_run path zero w content Hfile Hne). fold expenses.
  rewrite divides_iff_spent.
  destruct (truthy (sum_amounts expenses)) eqn:Ht; [done |].
  apply truthy_false in Ht.
  assert (Hbody : report_body content zero (clock w)
                  = ((fun ca => MsgCategoryLine (emoji_of ca.1) ca.1 ca.2 zero)
                       <$> aggregate expenses)
                    ++ [MsgTotalSpent zero; MsgRemaining zero; MsgDaily zero;
                        Prompt AskShowPie]).
  { unfold report_body. fold expenses. rewrite Ht, sub_zero_zero. f_equal.
    - unfold category_lines. apply list_fmap_ext. intros i [cat amt] _. simpl.
      by rewrite pct_of_falsy.
    - do 3 f_equal. unfold daily_allowance.
      destruct (Z.eq_dec (days_left_on (clock w)) 0%Z) as [-> | Hd]; [done |].
      by rewrite div_zero_of_Z. }
  rewrite Hbody. destruct (stdin w) as [|ans rest]; cbn [fst snd stdout].
  - split; [done |]. exists []. by rewrite <- ?app_assoc.
  - split; [done |]. destruct (says_yes ans).
    + eexists [_]. by rewrite <- ?app_assoc.
    + exists []. by rewrite <- ?app_assoc.
Qed.

(** **** The entry loops *)

(** C9, at the failing input: the text [nan] is read by [float] as
    NaN, which is not below zero, so both entry loops return it; and
    NaN is not [>= 0]. *)
Theorem nan_passes_the_entry_loops :
  (get_user_expense nan_expense_world).1 = Ok (mkExpense "Coffee" "Food" NaN)
  /\ (load_or_create_budget june_1 nan_budget_world).1 = Ok NaN
  /\ geb NaN zero = false.
Proof. vm_compute. repeat split. Qed.

Lemma entry_rounds_accepts p msg (lines : list string) : forall out x rest out',
  entry_rounds p msg lines out = (Ok x, rest, out') ->
  ltb x zero = false /\ exists l, l ∈ lines /\ float_of_string l = Some x.
Proof.
  induction lines as [|l lines IH]; intros out x rest out'; simpl; [done |].
  destruct (float_of_string l) as [y|] eqn:Hy.
  - destruct (ltb y zero) eqn:Hlt.
    + intros H. apply IH in H as (? & l' & ? & ?). split; [done |].
      exists l'. split; [by right | done].
    + intros [= <- <- <-]. split; [done |]. exists l. split; [by left | done].
  - intros H. apply IH in H as (? & l' & ? & ?). split; [done |].
    exists l'. split; [by right | done].
Qed.

(** What an entry loop returns is a value read by [float] that is not
    below zero: a number [>= 0], or NaN. *)
Lemma entry_loop_accepts p msg w x w' :
  entry_loop p msg w = (Ok x, w') ->
  ltb x zero = false /\ (exists l, l ∈ stdin w /\ float_of_string l = Some x)
  /\ (x <> NaN -> geb x zero = true).
Proof.
  unfold entry_loop. destruct (entry_rounds p msg (stdin w) []) as [[r rest] out] eqn:E.
  intros [= -> <-]. apply entry_rounds_accepts in E as [Hlt Hl].
  repeat split; [done | done |]. intros Hnan.
  destruct x as [q | [] |]; try done. simpl in *.
  apply bool_decide_eq_false_1 in Hlt. apply bool_decide_eq_true_2.
  by apply Qcnot_lt_le.
Qed.

(** **** Malformed lines *)



(** **** Days remaining *)


(** **** The budget of the month *)

Lemma py_float_run s w :
  py_float s w = match float_of_string s with
                 | Some x => (Ok x, w)
                 | None => (Raise ValueError, w)
                 end.
Proof. unfold py_float. by destruct (float_of_string s). Qed.

Lemma write_text_run path s w :
  write_text path s w = (Ok tt, set_fs (<[path := s]> (fs w)) w).
Proof. reflexivity. Qed.

(** The budget file depends on the year and the month only. *)
Lemma budget_file_same_month (d d' : date) :
  year d' = year d -> month d' = month d -> budget_file_for d' = budget_file_for d.
Proof. intros Hy Hm. unfold budget_file_for, month_label. by rewrite Hy, Hm. Qed.

(** With a budget on file, the resolver returns it and does nothing
    else. *)
Lemma budget_loaded (today : date) (w : world) (c : string) (b : pyfloat) :
  fs w !! budget_file_for today = Some c ->
  float_of_string (strip c) = Some b ->
  load_or_create_budget today w = (Ok b, w).
Proof.
  intros Hfile Hb. unfold load_or_create_budget. cbv zeta.
  rewrite bind_run, path_exists_run.
  rewrite bool_decide_eq_true_2 by (by rewrite Hfile).
  by rewrite bind_run, (read_text_run _ _ _ Hfile), py_float_run, Hb.
Qed.

Lemma fresh_budget_stored (today : date) (w w' : world) (b : pyfloat) :
  (new_budget ← entry_loop (AskBudget today) MsgBudgetPositive;
   write_text (budget_file_for today) (str_of_float new_budget);;
   mret new_budget) w = (Ok b, w') ->
  fs w' !! budget_file_for today = Some (str_of_float b)
  /\ float_of_string (strip (str_of_float b)) = Some b.
Proof.
  rewrite bind_run.
  destruct (entry_loop _ _ w) as [[x | e] w1] eqn:E; [| done].
  rewrite bind_run, write_text_run, ret_run. intros [= <- <-].
  apply entry_loop_accepts in E as (_ & (l & _ & Hl) & _).
  split.
  - cbn [fs set_fs]. apply lookup_insert_eq.
  - by apply (float_roundtrip l).
Qed.

(** A budget that the resolver returns is on file afterwards, as a
    text that reads back as the same value. *)
Lemma budget_stored (today : date) (w w' : world) (b : pyfloat) :
  load_or_create_budget today w = (Ok b, w') ->
  exists c, fs w' !! budget_file_for today = Some c
            /\ float_of_string (strip c) = Some b.
Proof.
  unfold load_or_create_budget. cbv zeta.
  rewrite bind_run, path_exists_run.
  destruct (fs w !! budget_file_for today) as [c|] eqn:Hfile.
  - rewrite bool_decide_eq_true_2 by done.
    rewrite bind_run, (read_text_run _ _ _ Hfile), py_float_run.
    destruct (float_of_string (strip c)) as [x|] eqn:Hx; [| done].
    intros [= <- <-]. by exists c.
  - rewrite bool_decide_eq_false_2 by (by intros [? ?]).
    destruct (last_day_of_previous_month today) as [prev|]; [| done].
    rewrite bind_run, path_exists_run.
    destruct (_ && _).
    + rewrite bind_run. unfold read_text.
      destruct (fs w !! budget_file_for prev) as [c|]; [| done].
      rewrite bind_run, py_float_run.
      destruct (float_of_string (strip c)) as [v|] eqn:Hv; [| done].
      rewrite bind_run, input_run. destruct (stdin w) as [|ans rest]; [done |].
      destruct (says_yes ans).
      * rewrite bind_run, write_text_run, ret_run. intros [= <- <-].
        exists (str_of_float v). split.
        -- cbn [fs set_fs set_stdin emit]. apply lookup_insert_eq.
        -- by apply (float_roundtrip (strip c)).
      * intros H. apply fresh_budget_stored in H as [? ?]. eauto.
    + intros H. apply fresh_budget_stored in H as [? ?]. eauto.
Qed.

(** C4. When the resolver has returned a budget, a call on any day of
    the same month, in any world where the month's budget file is
    still what the first call left, returns the same amount and leaves
    the world as it is: nothing is asked, read from the console,
    printed or written. *)
Theorem budget_resolver_idempotent
    (today today' : date) (w w' w2 : world) (b : pyfloat) :
  load_or_create_budget today w = (Ok b, w') ->
  year today' = year today -> month today' = month today ->
  fs w2 !! budget_file_for today = fs w' !! budget_file_for today ->
  load_or_create_budget today' w2 = (Ok b, w2).
Proof.
  intros Hfirst Hy Hm Hsame.
  destruct (budget_stored _ _ _ _ Hfirst) as (c & Hc & Hb).
  apply (budget_loaded today' w2 c b); [| done].
  by rewrite (budget_file_same_month today today'), Hsame.
Qed.

(** C5. On day 1 of a month without a budget file, when the file of
    the month before reads as 5000 and the answer to the question is
    [y] (in any case, with any white space around), the resolver asks
    once, writes [5000.0] as this month's budget, which reads as 5000,
    and returns 5000. *)
Theorem budget_carry_over
    (today prev : date) (w : world) (c ans : string) (rest : list string) :
  day today = 1%nat ->
  last_day_of_previous_month today = Some prev ->
  fs w !! budget_file_for today = None ->
  fs w !! budget_file_for prev = Some c ->
  float_of_string (strip c) = Some (of_Z 5000) ->
  stdin w = ans :: rest -> lower (strip ans) = "y" ->
  load_or_create_budget today w
  = (Ok (of_Z 5000),
     mkWorld (<[budget_file_for today := "5000.0"]> (fs w)) rest
       (stdout w ++ [Prompt (AskReuseBudget today (of_Z 5000))]) (clock w))
  /\ float_of_string (strip "5000.0") = Some (of_Z 5000).
Proof.
  intros Hday Hprev Hnone Hfile Hval Hin Hyes. split.
  - unfold load_or_create_budget. cbv zeta.
    rewrite bind_run, path_exists_run.
    rewrite bool_decide_eq_false_2 by (rewrite Hnone; by intros [? ?]).
    rewrite Hprev, bind_run, path_exists_run.
    rewrite bool_decide_eq_true_2 by (by rewrite Hfile).
    rewrite Hday. cbn [Nat.eqb andb].
    rewrite bind_run, (read_text_run _ _ _ Hfile).
    rewrite bind_run, py_float_run, Hval.
    rewrite bind_run, input_run, Hin.
    unfold says_yes. rewrite bool_decide_eq_true_2 by done.
    rewrite bind_run, write_text_run, ret_run.
    replace (str_of_float (of_Z 5000)) with "5000.0" by (by vm_compute).
    reflexivity.
  - by_decide.
Qed.

(** **** Saving an expense and reading it back *)

Lemma datechar_plain c :
  datechar c = true ->
  isspace c = false /\ other_than "," c = true /\ no_break c = true.
Proof.
  destruct c as [[] [] [] [] [] [] [] []]; vm_compute; intuition congruence.
Qed.

Lemma dec_datechar w n : all_chars datechar (zfill w (dec n)) = true.
Proof.
  eapply all_chars_impl; [| apply zfill_isdigit, digits_isdigit].
  intros c Hc. unfold datechar. by rewrite Hc.
Qed.

Lemma isoformat_datechar d : all_chars datechar (isoformat d) = true.
Proof.
  unfold isoformat. by rewrite !all_chars_app, !dec_datechar.
Qed.

Lemma isoformat_head d : exists c r, isoformat d = String c r /\ isspace c = false.
Proof.
  pose proof (isoformat_datechar d) as H.
  assert (Hne : isoformat d <> EmptyString).
  { unfold isoformat. pose proof (length_zfill 4 (dec (year d))) as Hl.
    destruct (zfill 4 (dec (year d))); [simpl in Hl; lia | done]. }
  destruct (isoformat d) as [|c r]; [done |]. exists c, r. split; [done |].
  simpl in H. apply andb_prop in H as [Hc _].
  by destruct (datechar_plain c Hc) as (-> & _).
Qed.

(** A category of the catalog has no comma, no line break and no white
    space at its end, and is not empty. *)
Lemma catalog_plain (cat : string) :
  cat ∈ EXPENSE_CATEGORIES.*1 ->
  all_chars (other_than ",") cat = true /\ all_chars no_break cat = true
  /\ rstrip cat = cat /\ rstrip cat <> EmptyString.
Proof.
  intros H. cbn in H.
  repeat (apply elem_of_cons in H as [-> | H]; [by vm_compute |]).
  by apply elem_of_nil in H.
Qed.

Lemma expense_row_text today exp :
  expense_row today exp = row_text today exp +:+ String LF EmptyString.
Proof. reflexivity. Qed.

Lemma split_row today exp :
  all_chars (other_than ",") (name exp) = true ->
  category exp ∈ EXPENSE_CATEGORIES.*1 ->
  split "," (row_text today exp)
  = [isoformat today; name exp; str_of_float (amount exp); category exp].
Proof.
  intros Hname Hcat. unfold row_text.
  repeat change ("," +:+ ?x) with (String "," x).
  rewrite split_app.
  2:{ eapply all_chars_impl; [| apply isoformat_datechar].
      intros c Hc. by destruct (datechar_plain c Hc) as (_ & -> & _). }
  rewrite split_app by done.
  rewrite split_app by apply str_of_float_no_comma.
  rewrite split_single; [done |]. by apply catalog_plain.
Qed.

Lemma strip_row today exp :
  category exp ∈ EXPENSE_CATEGORIES.*1 ->
  strip (row_text today exp) = row_text today exp.
Proof.
  intros Hcat. destruct (catalog_plain _ Hcat) as (_ & _ & Hr & Hne).
  destruct (isoformat_head today) as (c & r & Hiso & Hc).
  unfold row_text. rewrite Hiso, str_app_cons, <- !str_app_assoc.
  by apply strip_id_ends.
Qed.

Lemma parse_row today exp :
  all_chars (other_than ",") (name exp) = true ->
  category exp ∈ EXPENSE_CATEGORIES.*1 ->
  representable (amount exp) ->
  parse_line (row_text today exp) = Some exp.
Proof.
  intros Hname Hcat Hrep. unfold parse_line.
  rewrite strip_row, split_row by done.
  rewrite float_of_string_str_of_float by done.
  by destruct exp.
Qed.

Lemma row_no_break today exp :
  all_chars no_break (name exp) = true ->
  category exp ∈ EXPENSE_CATEGORIES.*1 ->
  all_chars no_break (row_text today exp) = true.
Proof.
  intros Hname Hcat. unfold row_text. rewrite !all_chars_app.
  rewrite Hname, str_of_float_no_break.
  destruct (catalog_plain _ Hcat) as (_ & -> & _).
  assert (all_chars no_break (isoformat today) = true) as ->; [| done].
  eapply all_chars_impl; [| apply isoformat_datechar].
  intros c Hc. by destruct (datechar_plain c Hc) as (_ & _ & ->).
Qed.

Lemma save_expense_run exp path w :
  save_expense exp path w
  = (Ok tt,
     mkWorld (<[path := default EmptyString (fs w !! path) +:+ expense_row (clock w) exp]> (fs w))
       (stdin w) (stdout w ++ [MsgSaved]) (clock w)).
Proof. reflexivity. Qed.

(** C3, as stated, fails: a description with a comma gives a row of
    five fields, which the parser skips. *)
Lemma comma_in_description_is_not_read_back :
  geb (of_Z 50) zero = true /\ "Food" ∈ EXPENSE_CATEGORIES.*1
  /\ ~ reads_back (mkExpense "a,b" "Food" (of_Z 50))
         (expense_file_for june_1) (empty_world june_1).
Proof.
  split; [done |]. split; [cbn; set_solver |].
  intros (c & records & w'' & Hc & Hread & Hin).
  vm_compute in Hc. injection Hc as <-.
  rewrite read_expenses_run in Hread. injection Hread as <- _.
  vm_compute in Hin. by apply elem_of_nil in Hin.
Qed.

(** So does a description with a line break: the row is cut in two. *)
Lemma line_break_in_description_is_not_read_back :
  ~ reads_back (mkExpense (String "a" (String LF "b")) "Food" (of_Z 50))
      (expense_file_for june_1) (empty_world june_1).
Proof.
  intros (c & records & w'' & Hc & Hread & Hin).
  vm_compute in Hc. injection Hc as <-.
  rewrite read_expenses_run in Hread. injection Hread as <- _.
  vm_compute in Hin. by apply elem_of_nil in Hin.
Qed.

(** A store whose last line has no line feed glues the new row to it:
    with commas in that line the row is lost as well. *)
Lemma unterminated_store_glues_the_row :
  ~ reads_back (mkExpense "Coffee" "Food" (of_Z 50)) (expense_file_for june_1)
      (mkWorld {[ expense_file_for june_1 := "x,y" ]} [] [] june_1).
Proof.
  intros (c & records & w'' & Hc & Hread & Hin).
  vm_compute in Hc. injection Hc as <-.
  rewrite read_expenses_run in Hread. injection Hread as <- _.
  vm_compute in Hin. by apply elem_of_nil in Hin.
Qed.

(** C3, amended. For an expense whose description has no comma and no
    line break, whose amount is a representable value [>= 0] and whose
    category is in the catalog, and a store that is absent, empty or
    ends with a line feed: [save_expense] appends one row; the reading
    loop of [summarize] then returns the records it returned before
    followed by the expense itself (same description, amount and
    category); and the first field of the row is the current date. *)
Theorem save_then_read_back (exp : Expense) (path : string) (w : world) :
  all_chars (other_than ",") (name exp) = true ->
  all_chars no_break (name exp) = true ->
  category exp ∈ EXPENSE_CATEGORIES.*1 ->
  representable (amount exp) -> geb (amount exp) zero = true ->
  terminated (default EmptyString (fs w !! path)) ->
  let old := default EmptyString (fs w !! path) in
  let row := expense_row (clock w) exp in
  let w' := (save_expense exp path w).2 in
  fs w' !! path = Some (old +:+ row)
  /\ (read_expenses (old +:+ row) w').1
     = Ok ((parsed_lines (splitlines old)) ++ [exp])
  /\ (read_expenses old w).1 = Ok (parsed_lines (splitlines old))
  /\ head (split "," (strip row)) = Some (isoformat (clock w)).
Proof.
  intros Hcomma Hbreak Hcat Hrep _ Hterm old row w'.
  split; [| split; [| split]].
  - unfold w'. rewrite save_expense_run. cbn [snd fs]. apply lookup_insert_eq.
  - rewrite read_expenses_run. cbn [fst]. f_equal.
    rewrite splitlines_app by done. unfold row.
    rewrite expense_row_text, splitlines_line by by apply row_no_break.
    unfold parsed_lines. rewrite omap_app. cbn [omap list_omap].
    by rewrite parse_row.
  - by rewrite read_expenses_run.
  - unfold row. rewrite expense_row_text.
    assert (Hs : strip (row_text (clock w) exp +:+ String LF EmptyString)
                 = row_text (clock w) exp).
    { rewrite <- (strip_row (clock w) exp Hcat) at 2.
      destruct (isoformat_head (clock w)) as (c & r & Hiso & Hc).
      unfold row_text. rewrite Hiso, !str_app_cons. by apply strip_line. }
    rewrite Hs, split_row by done. reflexivity.
Qed.

(** **** The theorems at concrete inputs *)

(** A first run on 1 June 2025 with no file, where 5000 is typed, and a
    second run on 15 June. *)
Lemma budget_resolver_idempotent_witness :
  let w := mkWorld ∅ ["5000"] [] june_1 in
  let w' := (load_or_create_budget june_1 w).2 in
  load_or_create_budget june_1 w = (Ok (of_Z 5000), w')
  /\ load_or_create_budget (mkDate 2025 6 15) w' = (Ok (of_Z 5000), w').
Proof.
  intros w w'.
  assert (Hfirst : load_or_create_budget june_1 w = (Ok (of_Z 5000), w'))
    by (unfold w', w; by_decide).
  split; [exact Hfirst |].
  apply (budget_resolver_idempotent june_1 (mkDate 2025 6 15) w w' w' (of_Z 5000));
    [exact Hfirst | reflexivity | reflexivity | reflexivity].
Defined.

(** May 2025 has a budget of 5000; on 1 June the answer is [y]. *)
Lemma budget_carry_over_witness :
  let w := mkWorld {[ "budget_2025-05.txt" := "5000" ]} ["y"] [] june_1 in
  let r := load_or_create_budget june_1 w in
  r.1 = Ok (of_Z 5000) /\ fs r.2 !! "budget_2025-06.txt" = Some "5000.0".
Proof.
  intros w r.
  destruct (budget_carry_over june_1 (mkDate 2025 5 31) w "5000" "y" []) as [Hrun _];
    [reflexivity | reflexivity | reflexivity | reflexivity
    | by_decide | reflexivity | reflexivity |].
  unfold r. rewrite Hrun. split; [reflexivity |].
  cbn [snd fs]. apply lookup_insert_eq.
Defined.



(** Coffee for 50 under Food, saved to a store that does not exist
    yet. *)
Lemma save_then_read_back_witness :
  let exp := mkExpense "Coffee" "Food" (of_Z 50) in
  let path := expense_file_for june_1 in
  let w := empty_world june_1 in
  let w' := (save_expense exp path w).2 in
  fs w' !! path = Some (expense_row june_1 exp)
  /\ (read_expenses (expense_row june_1 exp) w').1 = Ok [exp].
Proof.
  intros exp path w w'.
  destruct (save_then_read_back exp path w) as (Hfile & Hread & _);
    [reflexivity | reflexivity | by apply list_elem_of_here
    | by exists 0%nat, 1%Z | reflexivity | by left |].
  split; [exact Hfile | exact Hread].
Defined.

End Claims.

(** ** Part IV. Further properties of the program *)

Module Further.
Import PyStr PyFloat PyDate Effects Tracker.
Import Report Cases Views.
Import StrFacts DigitFacts FloatFacts ArithFacts EffectFacts TrackerFacts.

(** A closed statement with a decision procedure is settled by
    running it. *)
Ltac settle :=
  match goal with
  | |- ?P => apply (bool_decide_eq_true_1 P); vm_compute; reflexivity
  end.

(** **** The files of a month *)

Lemma cut_at_inj p (a a' : string) c c' (b b' : string) :
  all_chars (fun x => negb (p x)) a = true ->
  all_chars (fun x => negb (p x)) a' = true ->
  p c = true -> p c' = true ->
  a +:+ String c b = a' +:+ String c' b' -> a = a' /\ b = b'.
Proof.
  intros Ha Ha' Hc Hc' E.
  pose proof (cut_app p a c b Ha Hc) as H1.
  pose proof (cut_app p a' c' b' Ha' Hc') as H2.
  rewrite E in H1. rewrite H1 in H2. by injection H2 as -> ->.
Qed.

Lemma dec_inj n n' : dec n = dec n' -> n = n'.
Proof.
  intros E. pose proof (digits_val_digits (N.of_nat n)) as H1.
  pose proof (digits_val_digits (N.of_nat n')) as H2.
  unfold dec in E. rewrite E in H1. rewrite H1 in H2. injection H2. lia.
Qed.

Lemma zfill_dec_inj k n n' : zfill k (dec n) = zfill k (dec n') -> n = n'.
Proof.
  intros E. apply dec_inj.
  pose proof (digits_val_digits (N.of_nat n)) as H1.
  pose proof (digits_val_digits (N.of_nat n')) as H2.
  rewrite <- (digits_val_zfill k) in H1, H2. fold (dec n) in H1. fold (dec n') in H2.
  rewrite E in H1. rewrite H1 in H2. injection H2 as H2.
  f_equal. lia.
Qed.

Lemma isdigit_not c :
  isdigit c = false -> forall x, isdigit x = true -> negb (Ascii.eqb x c) = true.
Proof.
  intros Hc x Hx. destruct (Ascii.eqb_spec x c) as [-> | ?]; [congruence | done].
Qed.

(** The label of a month followed by any text that starts with a
    character other than a digit determines the year and the month. *)
Lemma month_label_app_inj (d d' : date) c (t : string) :
  isdigit c = false -> c <> "-"%char ->
  month_label d +:+ String c t = month_label d' +:+ String c t ->
  year d = year d' /\ month d = month d'.
Proof.
  intros Hc Hm E. unfold month_label in E. rewrite !str_app_assoc in E.
  change ("-" +:+ ?x) with (String "-" x) in E.
  repeat change ("-" +:+ ?x) with (String "-" x) in E.
  apply (cut_at_inj (fun x => Ascii.eqb x "-")) in E as [Ey E]; try done;
    try (apply (all_chars_impl isdigit); [by apply isdigit_not | apply digits_isdigit]).
  split; [by apply dec_inj |].
  apply (cut_at_inj (fun x => Ascii.eqb x c)) in E as [Em _].
  - by apply zfill_dec_inj in Em.
  - apply (all_chars_impl isdigit); [by apply isdigit_not |].
    apply zfill_isdigit, digits_isdigit.
  - apply (all_chars_impl isdigit); [by apply isdigit_not |].
    apply zfill_isdigit, digits_isdigit.
  - by rewrite Ascii.eqb_refl.
  - by rewrite Ascii.eqb_refl.
Qed.

Lemma month_label_same (d d' : date) :
  year d = year d' -> month d = month d' -> month_label d = month_label d'.
Proof. unfold month_label. by intros -> ->. Qed.

(** X1. The files of two dates are the same exactly when the dates
    have the same year and the same month, for the expense store and
    for the budget file alike; and no expense store is a budget
    file. *)
Theorem month_files_distinct (d d' : date) :
  (expense_file_for d = expense_file_for d'
   <-> year d = year d' /\ month d = month d')
  /\ (budget_file_for d = budget_file_for d'
      <-> year d = year d' /\ month d = month d')
  /\ expense_file_for d <> budget_file_for d'.
Proof.
  unfold expense_file_for, budget_file_for.
  split; [split | split; [split |]].
  - intros E. rewrite !str_app_cons, !str_app_nil_l in E.
    injection E as E. by apply month_label_app_inj in E.
  - intros [? ?]. by rewrite (month_label_same d d').
  - intros E. rewrite !str_app_cons, !str_app_nil_l in E.
    injection E as E. by apply month_label_app_inj in E.
  - intros [? ?]. by rewrite (month_label_same d d').
  - rewrite !str_app_cons. discriminate.
Qed.

(** **** The entry loops *)

Lemma entry_rounds_retries p msg (bad : list string) (replies : list event) :
  Forall2 (fun l e => entry_reply msg l = Some e) bad replies ->
  forall good x rest out,
  float_of_string good = Some x -> ltb x zero = false ->
  entry_rounds p msg (bad ++ good :: rest) out
  = (Ok x, rest, out ++ (replies ≫= fun e => [Prompt p; e]) ++ [Prompt p]).
Proof.
  induction 1 as [|l e bad replies Hl _ IH]; intros good x rest out Hx Hlt.
  - cbn [app entry_rounds mbind list_bind]. by rewrite Hx, Hlt.
  - cbn [app entry_rounds]. unfold entry_reply in Hl.
    destruct (float_of_string l) as [y|].
    + destruct (ltb y zero); [| done]. injection Hl as <-.
      rewrite (IH good x rest _ Hx Hlt). cbn [mbind list_bind].
      by rewrite <- !app_assoc.
    + injection Hl as <-. rewrite (IH good x rest _ Hx Hlt). cbn [mbind list_bind].
      by rewrite <- !app_assoc.
Qed.

Lemma entry_rounds_exhausted p msg (lines : list string) (replies : list event) :
  Forall2 (fun l e => entry_reply msg l = Some e) lines replies ->
  forall out,
  entry_rounds p msg lines out
  = (Raise EOFError, [], out ++ (replies ≫= fun e => [Prompt p; e]) ++ [Prompt p]).
Proof.
  induction 1 as [|l e bad replies Hl _ IH]; intros out.
  - reflexivity.
  - cbn [entry_rounds]. unfold entry_reply in Hl.
    destruct (float_of_string l) as [y|].
    + destruct (ltb y zero); [| done]. injection Hl as <-.
      rewrite IH. cbn [mbind list_bind]. by rewrite <- !app_assoc.
    + injection Hl as <-. rewrite IH. cbn [mbind list_bind].
      by rewrite <- !app_assoc.
Qed.

Lemma entry_loop_run p msg (w : world) (bad : list string) (replies : list event)
    good x rest :
  stdin w = bad ++ good :: rest ->
  Forall2 (fun l e => entry_reply msg l = Some e) bad replies ->
  float_of_string good = Some x -> ltb x zero = false ->
  entry_loop p msg w
  = (Ok x,
     mkWorld (fs w) rest
       (stdout w ++ (replies ≫= fun e => [Prompt p; e]) ++ [Prompt p]) (clock w)).
Proof.
  intros Hin Hbad Hx Hlt. unfold entry_loop.
  rewrite Hin, (entry_rounds_retries p msg bad replies Hbad good x rest [] Hx Hlt).
  reflexivity.
Qed.

(** X2. An entry loop (the budget of lines 84-93, the amount of lines
    107-115) goes along the lines typed: each line that [float] does
    not read is answered by the invalid-number message, each number
    below zero by the loop's own message, both followed by a new
    prompt; the first line that reads as a value not below zero ends
    the loop, which returns that value and leaves the lines after it
    unread and the files as they are. *)
Theorem entry_loop_retries p msg (w : world) (bad : list string)
    (replies : list event) good x rest :
  stdin w = bad ++ good :: rest ->
  Forall2 (fun l e => entry_reply msg l = Some e) bad replies ->
  float_of_string good = Some x -> ltb x zero = false ->
  entry_loop p msg w
  = (Ok x,
     mkWorld (fs w) rest
       (stdout w ++ (replies ≫= fun e => [Prompt p; e]) ++ [Prompt p]) (clock w))
  /\ Forall (fun e => e = msg \/ e = MsgInvalidNumber) replies.
Proof.
  intros Hin Hbad Hx Hlt. split; [by apply (entry_loop_run p msg w bad replies good) |].
  clear Hin. induction Hbad as [|l e bad replies Hl _ IH]; constructor; [| done].
  unfold entry_reply in Hl. destruct (float_of_string l) as [y|].
  - destruct (ltb y zero); [| done]. injection Hl as <-. by left.
  - injection Hl as <-. by right.
Qed.

(** Two lines are turned down, then 12.5 is taken and [rest] is left. *)
Lemma entry_loop_retries_witness :
  entry_loop AskAmount MsgAmountPositive
    (mkWorld ∅ ["abc"; "-5"; "12.5"; "rest"] [] june_1)
  = (Ok (Fin (Q2Qc (25 # 2))),
     mkWorld ∅ ["rest"]
       [Prompt AskAmount; MsgInvalidNumber; Prompt AskAmount; MsgAmountPositive;
        Prompt AskAmount] june_1).
Proof.
  apply (entry_loop_retries AskAmount MsgAmountPositive
           (mkWorld ∅ ["abc"; "-5"; "12.5"; "rest"] [] june_1)
           ["abc"; "-5"] [MsgInvalidNumber; MsgAmountPositive] "12.5"
           (Fin (Q2Qc (25 # 2))) ["rest"]).
  - reflexivity.
  - repeat constructor.
  - settle.
  - reflexivity.
Defined.

(** X3. When every line typed is turned down, an entry loop answers
    each of them, asks once more and raises [EOFError] at the end of
    the input; it returns no value and writes no file. *)
Theorem entry_loop_exhausted p msg (w : world) (replies : list event) :
  Forall2 (fun l e => entry_reply msg l = Some e) (stdin w) replies ->
  entry_loop p msg w
  = (Raise EOFError,
     mkWorld (fs w) []
       (stdout w ++ (replies ≫= fun e => [Prompt p; e]) ++ [Prompt p]) (clock w)).
Proof.
  intros H. unfold entry_loop. by rewrite (entry_rounds_exhausted p msg _ _ H).
Qed.

Lemma entry_loop_exhausted_witness :
  entry_loop (AskBudget june_1) MsgBudgetPositive (mkWorld ∅ ["-1"] [] june_1)
  = (Raise EOFError,
     mkWorld ∅ []
       [Prompt (AskBudget june_1); MsgBudgetPositive; Prompt (AskBudget june_1)]
       june_1).
Proof.
  apply (entry_loop_exhausted (AskBudget june_1) MsgBudgetPositive
           (mkWorld ∅ ["-1"] [] june_1) [MsgBudgetPositive]).
  repeat constructor.
Defined.

(** **** Entering an expense *)

Lemma category_rounds_retries (bad : list string) (replies : list event) :
  Forall2 (fun l e => choice_reply l = Some e) bad replies ->
  forall good i cat rest out,
  int_of_string good = Some i -> (1 <= i)%Z ->
  EXPENSE_CATEGORIES.*1 !! Z.to_nat (i - 1) = Some cat ->
  category_rounds (bad ++ good :: rest) out
  = (Ok cat, rest,
     out ++ (replies ≫= fun e => category_menu ++ [Prompt AskChoice; e])
     ++ category_menu ++ [Prompt AskChoice]).
Proof.
  induction 1 as [|l e bad replies Hl _ IH]; intros good i cat rest out Hi Hpos Hcat.
  - cbn [app category_rounds mbind list_bind]. rewrite Hi.
    pose proof (lookup_lt_Some _ _ _ Hcat) as Hlen. rewrite length_fmap in Hlen.
    assert (((0 <=? i - 1) && (i - 1 <? Z.of_nat (length EXPENSE_CATEGORIES)))%Z = true)
      as -> by lia.
    rewrite list_lookup_fmap in Hcat.
    destruct (EXPENSE_CATEGORIES !! Z.to_nat (i - 1)) as [ce|] eqn:E; [| done].
    injection Hcat as <-.
    rewrite (nth_lookup_Some _ _ _ _ E). reflexivity.
  - cbn [app category_rounds]. unfold choice_reply in Hl.
    destruct (int_of_string l) as [j|].
    + destruct ((0 <=? j - 1) && (j - 1 <? Z.of_nat (length EXPENSE_CATEGORIES)))%Z;
        [done |].
      injection Hl as <-.
      rewrite (IH good i cat rest _ Hi Hpos Hcat). cbn [mbind list_bind].
      by rewrite <- !app_assoc.
    + injection Hl as <-.
      rewrite (IH good i cat rest _ Hi Hpos Hcat). cbn [mbind list_bind].
      by rewrite <- !app_assoc.
Qed.

(** X4. The category loop (lines 117-128) prints the menu and asks
    before every line it reads; a line that [int] does not read is
    answered by the enter-a-number message and a number outside
    1..12 by the invalid-selection message; the first line that reads
    as a number [i] of the menu ends the loop, which returns the
    [i]-th category of the catalog, counted from 1, and leaves the
    lines after it unread. *)
Theorem category_loop_retries (w : world) (bad : list string) (replies : list event)
    good i cat rest :
  stdin w = bad ++ good :: rest ->
  Forall2 (fun l e => choice_reply l = Some e) bad replies ->
  int_of_string good = Some i -> (1 <= i)%Z ->
  EXPENSE_CATEGORIES.*1 !! Z.to_nat (i - 1) = Some cat ->
  category_loop w
  = (Ok cat,
     mkWorld (fs w) rest
       (stdout w ++ (replies ≫= fun e => category_menu ++ [Prompt AskChoice; e])
        ++ category_menu ++ [Prompt AskChoice]) (clock w)).
Proof.
  intros Hin Hbad Hi Hpos Hcat. unfold category_loop.
  rewrite Hin, (category_rounds_retries bad replies Hbad good i cat rest [] Hi Hpos Hcat).
  reflexivity.
Qed.

(** The choices 0, 13 and [x] are turned down, then 2 selects
    Transport. *)
Lemma category_loop_retries_witness :
  (category_loop (mkWorld ∅ ["0"; "13"; "x"; " 2 "; "rest"] [] june_1)).1 = Ok "Transport"
  /\ stdin (category_loop (mkWorld ∅ ["0"; "13"; "x"; " 2 "; "rest"] [] june_1)).2
     = ["rest"].
Proof.
  rewrite (category_loop_retries
             (mkWorld ∅ ["0"; "13"; "x"; " 2 "; "rest"] [] june_1)
             ["0"; "13"; "x"] [MsgInvalidSelection; MsgInvalidSelection; MsgEnterNumber]
             " 2 " 2 "Transport" ["rest"]).
  - split; reflexivity.
  - reflexivity.
  - repeat constructor.
  - reflexivity.
  - lia.
  - reflexivity.
Defined.

Lemma category_rounds_in (lines : list string) : forall out cat rest out',
  category_rounds lines out = (Ok cat, rest, out') ->
  cat ∈ EXPENSE_CATEGORIES.*1 /\ exists used, lines = used ++ rest.
Proof.
  induction lines as [|l lines IH]; intros out cat rest out'; cbn [category_rounds];
    [done |].
  destruct (int_of_string l) as [i|].
  - destruct ((0 <=? i - 1) && (i - 1 <? Z.of_nat (length EXPENSE_CATEGORIES)))%Z eqn:Hi.
    + assert (Hlt : (Z.to_nat (i - 1) < length EXPENSE_CATEGORIES)%nat) by lia.
      apply lookup_lt_is_Some in Hlt as [ce Hce].
      rewrite (nth_lookup_Some _ _ _ _ Hce).
      intros [= <- <- <-]. split; [| by exists [l]].
      apply list_elem_of_fmap. exists ce. split; [done |].
      by apply list_elem_of_lookup_2 in Hce.
    + intros H. apply IH in H as [? [used ->]]. split; [done |]. by exists (l :: used).
  - intros H. apply IH in H as [? [used ->]]. split; [done |]. by exists (l :: used).
Qed.

Lemma rstrip_by_idemp p (s : string) : rstrip_by p (rstrip_by p s) = rstrip_by p s.
Proof.
  induction s as [|c r IH]; [done |]. cbn [rstrip_by].
  destruct (p c && is_empty (rstrip_by p r)) eqn:E; [done |].
  cbn [rstrip_by]. by rewrite IH, E.
Qed.

Lemma lstrip_head (s : string) :
  lstrip s = EmptyString \/ exists c r, lstrip s = String c r /\ isspace c = false.
Proof.
  induction s as [|c r IH]; [by left |]. cbn [lstrip].
  destruct (isspace c) eqn:E; [done |]. right. by exists c, r.
Qed.

(** [strip] has nothing left to remove from its own result. *)
Lemma strip_idemp (s : string) : strip (strip s) = strip s.
Proof.
  unfold strip, rstrip. destruct (lstrip_head s) as [-> | (c & r & -> & Hc)]; [done |].
  cbn [rstrip_by]. rewrite Hc. cbn [andb].
  rewrite lstrip_id by done. cbn [rstrip_by]. rewrite Hc. cbn [andb].
  by rewrite rstrip_by_idemp.
Qed.

(** X5. Whatever [get_user_expense] returns is laid out as the rest of
    the program expects: the description is the first line typed
    without the white space around it, the amount is a value read by
    [float] that is not below zero, the category is one of the
    catalog; and no file has changed. *)
Theorem get_user_expense_returns (w w' : world) (exp : Expense) :
  get_user_expense w = (Ok exp, w') ->
  (exists line more, stdin w = line :: more /\ name exp = strip line)
  /\ strip (name exp) = name exp
  /\ ltb (amount exp) zero = false
  /\ category exp ∈ EXPENSE_CATEGORIES.*1
  /\ fs w' = fs w.
Proof.
  unfold get_user_expense. rewrite bind_run, print_run, bind_run, input_run.
  destruct w as [files inp out today]. cbn [stdin emit set_stdin fs stdout clock].
  destruct inp as [|line more]; [done |].
  rewrite bind_run. unfold entry_loop at 1. cbn [stdin emit set_stdin fs stdout clock].
  destruct (entry_rounds AskAmount MsgAmountPositive more []) as [[r rest] o] eqn:E.
  destruct r as [x | e]; [| done].
  rewrite bind_run. unfold category_loop at 1. cbn [stdin emit set_stdin fs stdout clock].
  destruct (category_rounds rest []) as [[r' rest'] o'] eqn:E'.
  destruct r' as [cat | e]; [| done].
  rewrite ret_run. intros [= <- <-]. cbn [name amount category fs].
  apply Claims.entry_rounds_accepts in E as [Hlt _].
  apply category_rounds_in in E' as [Hcat _].
  repeat split; try done.
  - by exists line, more.
  - apply strip_idemp.
Qed.

Lemma get_user_expense_returns_witness :
  let w := mkWorld ∅ ["  Coffee "; "50"; "1"] [] june_1 in
  get_user_expense w = (Ok (mkExpense "Coffee" "Food" (of_Z 50)), (get_user_expense w).2)
  /\ fs (get_user_expense w).2 = ∅.
Proof.
  intros w.
  assert (E : get_user_expense w
              = (Ok (mkExpense "Coffee" "Food" (of_Z 50)), (get_user_expense w).2))
    by settle.
  split; [exact E |].
  exact (proj2 (proj2 (proj2 (proj2 (get_user_expense_returns w _ _ E))))).
Defined.

(** **** The budget of the month *)

Lemma path_exists_Some path (w : world) c :
  fs w !! path = Some c -> path_exists path w = (Ok true, w).
Proof.
  intros H. rewrite path_exists_run. by rewrite bool_decide_eq_true_2 by by rewrite H.
Qed.

Lemma path_exists_None path (w : world) :
  fs w !! path = None -> path_exists path w = (Ok false, w).
Proof.
  intros H. rewrite path_exists_run.
  by rewrite bool_decide_eq_false_2 by (rewrite H; by intros [? ?]).
Qed.

(** The third step of the resolver: the budget is asked for and
    written down. *)
Lemma fresh_budget_run (today : date) (w : world) (bad : list string)
    (replies : list event) good x rest :
  stdin w = bad ++ good :: rest ->
  Forall2 (fun l e => entry_reply MsgBudgetPositive l = Some e) bad replies ->
  float_of_string good = Some x -> ltb x zero = false ->
  (new_budget ← entry_loop (AskBudget today) MsgBudgetPositive;
   write_text (budget_file_for today) (str_of_float new_budget);;
   mret new_budget) w
  = (Ok x,
     mkWorld (<[budget_file_for today := str_of_float x]> (fs w)) rest
       (stdout w ++ (replies ≫= fun e => [Prompt (AskBudget today); e])
        ++ [Prompt (AskBudget today)]) (clock w)).
Proof.
  intros Hin Hbad Hx Hlt.
  rewrite bind_run, (entry_loop_run _ _ w bad replies good x rest Hin Hbad Hx Hlt).
  reflexivity.
Qed.

(** X6. A budget file that does not read as a number stops the
    resolver with [ValueError], before anything is asked, printed or
    written: the file of this month when there is one, and, on day 1
    of a month without a file, the file of the month before. *)
Theorem budget_file_malformed (today prev : date) (w : world) (c : string) :
  fs w !! budget_file_for today = Some c
  \/ (fs w !! budget_file_for today = None /\ day today = 1%nat
      /\ last_day_of_previous_month today = Some prev
      /\ fs w !! budget_file_for prev = Some c) ->
  float_of_string (strip c) = None ->
  load_or_create_budget today w = (Raise ValueError, w).
Proof.
  intros [Hc | (Hnone & Hday & Hprev & Hc)] Hbad; unfold load_or_create_budget.
  - rewrite bind_run, (path_exists_Some _ _ _ Hc).
    rewrite bind_run, (read_text_run _ _ _ Hc), Claims.py_float_run.
    by rewrite Hbad.
  - rewrite bind_run, (path_exists_None _ _ Hnone). rewrite Hprev.
    rewrite bind_run, (path_exists_Some _ _ _ Hc). rewrite Hday. cbn [Nat.eqb andb].
    rewrite bind_run, (read_text_run _ _ _ Hc).
    rewrite bind_run, Claims.py_float_run. by rewrite Hbad.
Qed.

(** An empty budget file for June, and an empty one for May met on 1
    June. *)
Lemma budget_file_malformed_witness :
  (load_or_create_budget june_1
     (mkWorld {[ budget_file_for june_1 := EmptyString ]} ["100"] [] june_1)).1
  = Raise ValueError
  /\ (load_or_create_budget june_1
        (mkWorld {[ budget_file_for (mkDate 2025 5 31) := "five" ]} ["100"] [] june_1)).1
     = Raise ValueError.
Proof.
  split.
  - rewrite (budget_file_malformed june_1 june_1 _ EmptyString); [done | by left | done].
  - rewrite (budget_file_malformed june_1 (mkDate 2025 5 31) _ "five");
      [done | right | done].
    repeat split; settle.
Defined.

(** X7. In a month without a budget file, when it is not day 1 or the
    month before has no budget file, the resolver goes straight to
    the entry loop: it asks for the budget, without offering any
    carry-over, writes the value entered to the file of the month in
    the form of [str], and returns it. *)
Theorem budget_asked_afresh (today prev : date) (w : world) (bad : list string)
    (replies : list event) good x rest :
  fs w !! budget_file_for today = None ->
  last_day_of_previous_month today = Some prev ->
  day today <> 1%nat \/ fs w !! budget_file_for prev = None ->
  stdin w = bad ++ good :: rest ->
  Forall2 (fun l e => entry_reply MsgBudgetPositive l = Some e) bad replies ->
  float_of_string good = Some x -> ltb x zero = false ->
  load_or_create_budget today w
  = (Ok x,
     mkWorld (<[budget_file_for today := str_of_float x]> (fs w)) rest
       (stdout w ++ (replies ≫= fun e => [Prompt (AskBudget today); e])
        ++ [Prompt (AskBudget today)]) (clock w)).
Proof.
  intros Hnone Hprev Hno Hin Hbad Hx Hlt. unfold load_or_create_budget.
  rewrite bind_run, (path_exists_None _ _ Hnone). rewrite Hprev.
  rewrite bind_run, path_exists_run.
  assert (((day today =? 1)%nat
           && bool_decide (is_Some (fs w !! budget_file_for prev))) = false) as ->.
  { destruct Hno as [Hd | Hp].
    - by apply Nat.eqb_neq in Hd as ->.
    - rewrite bool_decide_eq_false_2 by (rewrite Hp; by intros [? ?]).
      apply andb_false_r. }
  by apply (fresh_budget_run today w bad replies good x rest).
Qed.

(** On 15 June, with a budget on file for May, nothing is offered:
    the budget typed is taken. *)
Lemma budget_asked_afresh_witness :
  let w := mkWorld {[ budget_file_for (mkDate 2025 5 31) := "5000" ]}
             ["oops"; "300"] [] (mkDate 2025 6 15) in
  load_or_create_budget (mkDate 2025 6 15) w
  = (Ok (of_Z 300),
     mkWorld (<[ "budget_2025-06.txt" := "300.0" ]> (fs w)) []
       [Prompt (AskBudget (mkDate 2025 6 15)); MsgInvalidNumber;
        Prompt (AskBudget (mkDate 2025 6 15))] (mkDate 2025 6 15)).
Proof.
  intros w.
  apply (budget_asked_afresh (mkDate 2025 6 15) (mkDate 2025 5 31) w
           ["oops"] [MsgInvalidNumber] "300" (of_Z 300) []).
  - settle.
  - reflexivity.
  - left. cbn. lia.
  - reflexivity.
  - repeat constructor.
  - settle.
  - reflexivity.
Defined.

(** X8. When the carry-over is offered and the answer is anything but
    [y] (in either case, with any white space around), the budget of
    the month before is dropped and the resolver goes on to the entry
    loop: the value entered there is written and returned. *)
Theorem budget_carry_over_declined (today prev : date) (w : world) (c ans : string)
    (b : pyfloat) (bad : list string) (replies : list event) good x rest :
  day today = 1%nat ->
  last_day_of_previous_month today = Some prev ->
  fs w !! budget_file_for today = None ->
  fs w !! budget_file_for prev = Some c ->
  float_of_string (strip c) = Some b ->
  stdin w = ans :: bad ++ good :: rest ->
  lower (strip ans) <> "y" ->
  Forall2 (fun l e => entry_reply MsgBudgetPositive l = Some e) bad replies ->
  float_of_string good = Some x -> ltb x zero = false ->
  load_or_create_budget today w
  = (Ok x,
     mkWorld (<[budget_file_for today := str_of_float x]> (fs w)) rest
       (stdout w ++ [Prompt (AskReuseBudget today b)]
        ++ (replies ≫= fun e => [Prompt (AskBudget today); e])
        ++ [Prompt (AskBudget today)]) (clock w)).
Proof.
  intros Hday Hprev Hnone Hc Hb Hin Hans Hbad Hx Hlt. unfold load_or_create_budget.
  rewrite bind_run, (path_exists_None _ _ Hnone). rewrite Hprev.
  rewrite bind_run, (path_exists_Some _ _ _ Hc). rewrite Hday. cbn [Nat.eqb andb].
  rewrite bind_run, (read_text_run _ _ _ Hc).
  rewrite bind_run, Claims.py_float_run, Hb.
  rewrite bind_run, input_run, Hin.
  unfold says_yes. rewrite bool_decide_eq_false_2 by done.
  rewrite (fresh_budget_run today _ bad replies good x rest); try done.
  destruct w as [files inp out clk]. cbn [emit set_stdin fs stdin stdout clock].
  by rewrite <- app_assoc.
Qed.

(** On 1 June, with 5000 on file for May, the answer [yes] is not
    [y]: the budget typed next, 300, is the one of June. *)
Lemma budget_carry_over_declined_witness :
  let w := mkWorld {[ budget_file_for (mkDate 2025 5 31) := "5000" ]}
             ["yes"; "300"] [] june_1 in
  load_or_create_budget june_1 w
  = (Ok (of_Z 300),
     mkWorld (<[ "budget_2025-06.txt" := "300.0" ]> (fs w)) []
       [Prompt (AskReuseBudget june_1 (of_Z 5000)); Prompt (AskBudget june_1)] june_1).
Proof.
  intros w.
  apply (budget_carry_over_declined june_1 (mkDate 2025 5 31) w "5000" "yes"
           (of_Z 5000) [] [] "300" (of_Z 300) []).
  - reflexivity.
  - reflexivity.
  - settle.
  - settle.
  - settle.
  - reflexivity.
  - settle.
  - constructor.
  - settle.
  - reflexivity.
Defined.

(** **** What the program does to the files *)

Lemma changes_keeps (R : relation (gmap string string)) `{!Reflexive R} {A} (m : M A) :
  keeps_files m -> changes_by R m.
Proof. intros H w. by rewrite H. Qed.

Lemma changes_bind (R : relation (gmap string string)) `{!Transitive R} {A B}
    (m : M A) (k : A -> M B) :
  changes_by R m -> (forall a, changes_by R (k a)) -> changes_by R (m ≫= k).
Proof.
  intros Hm Hk w. rewrite bind_run. specialize (Hm w).
  destruct (m w) as [[a | e] w']; cbn [snd] in *; [| done].
  transitivity (fs w'); [exact Hm | apply Hk].
Qed.

Lemma keeps_entry_loop p msg : keeps_files (entry_loop p msg).
Proof.
  intros w. unfold entry_loop. by destruct (entry_rounds p msg (stdin w) []) as [[? ?] ?].
Qed.

Lemma keeps_category_loop : keeps_files category_loop.
Proof.
  intros w. unfold category_loop. by destruct (category_rounds (stdin w) []) as [[? ?] ?].
Qed.

Lemma keeps_get_user_expense : keeps_files get_user_expense.
Proof.
  unfold get_user_expense.
  repeat first [ apply keeps_entry_loop | apply keeps_category_loop | keeps_step ].
Qed.

Lemma keeps_summarize path budget : keeps_files (summarize path budget).
Proof. unfold summarize, visual_summary, read_expenses. repeat keeps_step. Qed.

#[local] Instance same_but_refl path : Reflexive (same_but path).
Proof. by intros f. Qed.

#[local] Instance same_but_trans path : Transitive (same_but path).
Proof. unfold same_but. intros f g h H1 H2. by rewrite H2. Qed.

Lemma changes_write_text path s : changes_by (same_but path) (write_text path s).
Proof. intros w. unfold same_but. cbn. apply delete_insert_eq. Qed.

Lemma fresh_budget_changes (today : date) :
  changes_by (same_but (budget_file_for today))
    (new_budget ← entry_loop (AskBudget today) MsgBudgetPositive;
     write_text (budget_file_for today) (str_of_float new_budget);;
     mret new_budget).
Proof.
  apply changes_bind; [apply _ | apply changes_keeps, keeps_entry_loop; apply _ |].
  intros x. apply changes_bind; [apply _ | apply changes_write_text |].
  intros _. apply changes_keeps; [apply _ | apply keeps_ret].
Qed.

Lemma budget_resolver_changes (today : date) :
  changes_by (same_but (budget_file_for today)) (load_or_create_budget today).
Proof.
  unfold load_or_create_budget.
  apply changes_bind; [apply _ | apply changes_keeps; [apply _ | auto with keeps] |].
  intros [|].
  { apply changes_keeps; [apply _ |]. repeat keeps_step. }
  destruct (last_day_of_previous_month today) as [prev|];
    [| apply changes_keeps; [apply _ | auto with keeps]].
  apply changes_bind; [apply _ | apply changes_keeps; [apply _ | auto with keeps] |].
  intros have_prev. destruct ((day today =? 1)%nat && have_prev);
    [| apply fresh_budget_changes].
  apply changes_bind; [apply _ | apply changes_keeps; [apply _ | auto with keeps] |].
  intros c.
  apply changes_bind; [apply _ | apply changes_keeps; [apply _ | auto with keeps] |].
  intros v.
  apply changes_bind; [apply _ | apply changes_keeps; [apply _ | auto with keeps] |].
  intros ans. destruct (says_yes ans); [| apply fresh_budget_changes].
  apply changes_bind; [apply _ | apply changes_write_text |].
  intros _. apply changes_keeps; [apply _ | apply keeps_ret].
Qed.

Lemma budget_on_file_run (today : date) (w : world) :
  is_Some (fs w !! budget_file_for today) -> (load_or_create_budget today w).2 = w.
Proof.
  intros [c Hc]. unfold load_or_create_budget.
  rewrite bind_run, (path_exists_Some _ _ _ Hc).
  rewrite bind_run, (read_text_run _ _ _ Hc), Claims.py_float_run.
  by destruct (float_of_string (strip c)).
Qed.

(** X9. Whatever the resolver does, and whether it returns or raises,
    the only file that may differ afterwards is the budget file of
    the current month; and when that file is there at the start, the
    resolver changes nothing at all: no file, no console output, no
    input consumed. *)
Theorem budget_resolver_frame (today : date) (w : world) :
  let r := load_or_create_budget today w in
  delete (budget_file_for today) (fs r.2) = delete (budget_file_for today) (fs w)
  /\ (is_Some (fs w !! budget_file_for today) -> r.2 = w).
Proof.
  split; [apply (budget_resolver_changes today w) | apply budget_on_file_run].
Qed.

#[local] Instance month_files_only_refl today : Reflexive (month_files_only today).
Proof.
  intros f. repeat split; try done. exists EmptyString. by rewrite str_app_nil_r.
Qed.

#[local] Instance month_files_only_trans today : Transitive (month_files_only today).
Proof.
  intros f g h (H1 & H2 & [m1 H3]) (H1' & H2' & [m2 H3']). repeat split.
  - intros p Hb He. by rewrite H1', H1.
  - intros c Hc. by apply H2', H2.
  - exists (m1 +:+ m2). by rewrite H3', H3, str_app_assoc.
Qed.

Lemma expense_not_budget (d d' : date) : expense_file_for d <> budget_file_for d'.
Proof. unfold expense_file_for, budget_file_for. rewrite !str_app_cons. discriminate. Qed.

Lemma budget_resolver_month (today : date) :
  changes_by (month_files_only today) (load_or_create_budget today).
Proof.
  intros w. pose proof (budget_resolver_changes today w) as Hd. unfold same_but in Hd.
  assert (Hp : forall p, p <> budget_file_for today ->
               fs (load_or_create_budget today w).2 !! p = fs w !! p).
  { intros p Hp.
    rewrite <- (lookup_delete_ne (fs (load_or_create_budget today w).2)
                  (budget_file_for today) p) by done.
    rewrite Hd. by apply lookup_delete_ne. }
  repeat split.
  - intros p Hb _. by apply Hp.
  - intros c Hc. by rewrite budget_on_file_run by by rewrite Hc.
  - exists EmptyString. rewrite str_app_nil_r. f_equal. apply Hp, expense_not_budget.
Qed.

Lemma save_expense_month (today : date) (exp : Expense) :
  changes_by (month_files_only today) (save_expense exp (expense_file_for today)).
Proof.
  intros w. rewrite Claims.save_expense_run. cbn [snd fs]. repeat split.
  - intros p _ He. by apply lookup_insert_ne.
  - intros c Hc. rewrite lookup_insert_ne by apply expense_not_budget. done.
  - eexists. rewrite lookup_insert_eq. reflexivity.
Qed.

Lemma main_changes (today : date) :
  changes_by (month_files_only today)
    (print (MsgTitle today);;
     budget ← load_or_create_budget today;
     ans ← input AskAddExpense;
     (if says_yes ans
      then exp ← get_user_expense; save_expense exp (expense_file_for today)
      else mret tt);;
     summarize (expense_file_for today) budget).
Proof.
  apply changes_bind; [apply _ | apply changes_keeps; [apply _ | auto with keeps] |].
  intros _. apply changes_bind; [apply _ | apply budget_resolver_month |].
  intros budget.
  apply changes_bind; [apply _ | apply changes_keeps; [apply _ | auto with keeps] |].
  intros ans. apply changes_bind; [apply _ | |].
  - destruct (says_yes ans); [| apply changes_keeps; [apply _ | auto with keeps]].
    apply changes_bind;
      [apply _ | apply changes_keeps; [apply _ | apply keeps_get_user_expense] |].
    intros exp. apply save_expense_month.
  - intros _. apply changes_keeps; [apply _ | apply keeps_summarize].
Qed.

(** X10. A run of [main], however it goes and also when it ends in an
    error, leaves every file other than the budget file and the
    expense store of the current month as it was; it leaves a budget
    that is on file for the month as it is; and it changes the store
    of the month only by adding text at its end. *)
Theorem main_touches_month_files_only (w : world) :
  let today := clock w in
  let r := main w in
  (forall p, p <> budget_file_for today -> p <> expense_file_for today ->
             fs r.2 !! p = fs w !! p)
  /\ (forall c, fs w !! budget_file_for today = Some c ->
                fs r.2 !! budget_file_for today = Some c)
  /\ (exists more,
        default EmptyString (fs r.2 !! expense_file_for today)
        = default EmptyString (fs w !! expense_file_for today) +:+ more).
Proof. apply (main_changes (clock w) w). Qed.

(** **** The dictionary of category totals *)

Lemma dict_get_set (d : dict) k v k' dflt :
  dict_get (dict_set d k v) k' dflt
  = if bool_decide (k = k') then v else dict_get d k' dflt.
Proof.
  induction d as [|[k0 v0] r IH]; cbn [dict_set dict_get]; [done |].
  destruct (bool_decide (k0 = k)) eqn:E0; cbn [dict_get].
  - apply bool_decide_eq_true_1 in E0 as ->.
    by destruct (bool_decide (k = k')).
  - apply bool_decide_eq_false_1 in E0. rewrite IH.
    destruct (bool_decide (k0 = k')) eqn:E1; [| done].
    apply bool_decide_eq_true_1 in E1 as ->.
    by rewrite bool_decide_eq_false_2 by congruence.
Qed.

Lemma dict_set_keys (d : dict) k v :
  (dict_set d k v).*1 = if bool_decide (k ∈ d.*1) then d.*1 else d.*1 ++ [k].
Proof.
  induction d as [|[k0 v0] r IH]; cbn [dict_set fmap list_fmap fst].
  - rewrite bool_decide_eq_false_2; [done | by intros ?%elem_of_nil].
  - destruct (bool_decide (k0 = k)) eqn:E0; cbn [fmap list_fmap fst].
    + apply bool_decide_eq_true_1 in E0 as ->.
      rewrite bool_decide_eq_true_2; [done | by left].
    + apply bool_decide_eq_false_1 in E0. change (list_fmap _ _ fst ?l) with (l.*1).
      rewrite IH. destruct (bool_decide (k ∈ r.*1)) eqn:E1.
      * apply bool_decide_eq_true_1 in E1.
        rewrite bool_decide_eq_true_2; [done | by right].
      * apply bool_decide_eq_false_1 in E1.
        rewrite bool_decide_eq_false_2; [done |].
        intros [? | ?]%elem_of_cons; congruence.
Qed.

Lemma aggregate_get_from (cat : string) (expenses : list Expense) : forall d : dict,
  dict_get
    (fold_left
       (fun d exp =>
          dict_set d (category exp) (add (dict_get d (category exp) zero) (amount exp)))
       expenses d) cat zero
  = fold_left add (amounts_in cat expenses) (dict_get d cat zero).
Proof.
  induction expenses as [|e es IH]; intros d; [done |].
  cbn [fold_left]. rewrite IH, dict_get_set. unfold amounts_in. rewrite filter_cons.
  destruct (decide (category e = cat)) as [<- | Hne].
  - by rewrite bool_decide_eq_true_2 by done.
  - by rewrite bool_decide_eq_false_2 by done.
Qed.

Lemma aggregate_keys_from (expenses : list Expense) : forall d : dict,
  (fold_left
     (fun d exp =>
        dict_set d (category exp) (add (dict_get d (category exp) zero) (amount exp)))
     expenses d).*1
  = d.*1 ++ filter (fun k => k ∉ d.*1) (first_seen (category <$> expenses)).
Proof.
  induction expenses as [|e es IH]; intros d.
  - cbn. by rewrite app_nil_r.
  - cbn [fold_left fmap list_fmap first_seen]. rewrite IH, dict_set_keys.
    change (list_fmap _ _ category es) with (category <$> es).
    rewrite filter_cons, list_filter_filter.
    destruct (bool_decide (category e ∈ d.*1)) eqn:E.
    + apply bool_decide_eq_true_1 in E. rewrite decide_False by tauto.
      f_equal. apply list_filter_iff. intros k. split; [| tauto].
      intros Hk. split; [done | congruence].
    + apply bool_decide_eq_false_1 in E. rewrite decide_True by done.
      rewrite <- app_assoc. cbn [app]. do 2 f_equal.
      apply list_filter_iff. intros k. rewrite elem_of_app, list_elem_of_singleton.
      tauto.
Qed.

Lemma filter_all {A} (P : A -> Prop) `{!forall x, Decision (P x)} (l : list A) :
  (forall x, P x) -> filter P l = l.
Proof.
  intros HP. induction l as [|x l IH]; [done |].
  by rewrite filter_cons_True, IH by done.
Qed.

Lemma first_seen_NoDup (l : list string) : NoDup (first_seen l).
Proof.
  induction l as [|x r IH]; cbn [first_seen]; [constructor |].
  constructor; [| by apply NoDup_filter].
  rewrite list_elem_of_filter. tauto.
Qed.

Lemma dict_as_keys (d : dict) dflt :
  NoDup d.*1 -> d = (fun k => (k, dict_get d k dflt)) <$> d.*1.
Proof.
  induction d as [|[k v] r IH]; [done |]. cbn [fmap list_fmap fst dict_get].
  intros [Hk Hr]%NoDup_cons. rewrite bool_decide_eq_true_2 by done. f_equal.
  rewrite (IH Hr) at 1. apply list_fmap_ext. intros i k' Hk'.
  rewrite bool_decide_eq_false_2; [done |].
  intros ->. apply Hk. by eapply list_elem_of_lookup_2.
Qed.

Lemma aggregate_shape (expenses : list Expense) :
  aggregate expenses
  = (fun cat => (cat, category_sum cat expenses))
      <$> first_seen (category <$> expenses).
Proof.
  pose proof (aggregate_keys_from expenses []) as Hk. cbn [fmap list_fmap app] in Hk.
  fold (aggregate expenses) in Hk.
  rewrite filter_all in Hk by (intros k; apply not_elem_of_nil).
  rewrite (dict_as_keys (aggregate expenses) zero) at 1
    by (rewrite Hk; apply first_seen_NoDup).
  rewrite Hk. apply list_fmap_ext. intros _ cat _. f_equal.
  apply (aggregate_get_from cat expenses []).
Qed.

(** X11. The loop of lines 185-187 builds a dictionary with one entry
    for each category that occurs in the records, in the order in
    which the categories first occur, and the amount of an entry is
    the sum, taken from the left, of the amounts recorded under its
    category. *)
Theorem aggregate_by_category (expenses : list Expense) :
  aggregate expenses
  = (fun cat => (cat, category_sum cat expenses))
      <$> first_seen (category <$> expenses).
Proof. exact (aggregate_shape expenses). Qed.

(** **** The chart that [summarize] asks for *)

Lemma aggregate_keys (expenses : list Expense) :
  (aggregate expenses).*1 = first_seen (category <$> expenses).
Proof. by rewrite aggregate_shape, <- list_fmap_compose, list_fmap_id. Qed.

(** X13. When the budget is not zero, the store has content and the
    answer to the last question is a yes, [summarize] prints its
    report and then asks the drawing library for one chart: the
    Remaining slice first, sized by the share of the budget that is
    left (the budget minus the total of the records read, divided by
    the budget, times 100) and set off by 0.06, then one slice for
    each category on record, in the order in which the categories
    first occur in the store, sized by the share of the budget that
    the amounts recorded under it add up to, and not set off.
    Whether the library then draws the chart is no part of the
    statement. *)
Theorem summarize_chart_request (path : string) (budget : pyfloat) (w : world)
    (content ans : string) (rest : list string) :
  fs w !! path = Some content -> content <> EmptyString ->
  truthy budget = true ->
  stdin w = ans :: rest -> says_yes ans = true ->
  let expenses := parsed_lines (splitlines content) in
  let cats := first_seen (category <$> expenses) in
  stdout (summarize path budget w).2
  = stdout w ++ report_head content ++ report_body content budget (clock w)
    ++ [PieChart ("Remaining" :: cats)
          (pct_of (sub budget (sum_amounts expenses)) budget
             :: ((fun cat => pct_of (category_sum cat expenses) budget) <$> cats))
          (Fin (Q2Qc (6 # 100)) :: ((fun _ => zero) <$> cats))].
Proof.
  intros Hc Hne Hb Hin Hans. cbn zeta.
  rewrite (summarize_run path budget w content Hc Hne). cbn zeta.
  assert (divides_by_zero_budget (aggregate (parsed_lines (splitlines content)))
            (sum_amounts (parsed_lines (splitlines content))) budget = false) as ->.
  { unfold divides_by_zero_budget. rewrite Hb. cbn [negb]. by rewrite andb_false_r. }
  rewrite Hin, Hans. cbn [snd stdout]. rewrite <- !app_assoc. do 3 f_equal.
  unfold report_pie, pie_chart. cbn zeta. rewrite aggregate_keys.
  rewrite aggregate_shape, <- !list_fmap_compose. reflexivity.
Qed.

(** 300 spent on coffee out of a budget of 200: the Remaining slice
    asked for is -50, the Food slice 150. *)
Lemma summarize_chart_request_witness :
  let path := expense_file_for june_1 in
  let w := mkWorld {[ path := "2025-06-01,Coffee,300,Food" +:+ String LF EmptyString ]}
             ["y"] [] june_1 in
  exists before,
    stdout (summarize path (of_Z 200) w).2
    = before ++ [PieChart ["Remaining"; "Food"] [of_Z (-50); of_Z 150]
                   [Fin (Q2Qc (6 # 100)); zero]].
Proof.
  intros path w. eexists.
  rewrite (summarize_chart_request path (of_Z 200) w
             ("2025-06-01,Coffee,300,Food" +:+ String LF EmptyString) "y" []);
    [| settle | discriminate | reflexivity | reflexivity | reflexivity].
  cbn zeta. rewrite !app_assoc. f_equal. settle.
Defined.

(** **** How [summarize] ends *)

Lemma store_cases (path : string) (w : world) :
  (fs w !! path = None \/ fs w !! path = Some EmptyString)
  \/ exists content, fs w !! path = Some content /\ content <> EmptyString.
Proof.
  destruct (fs w !! path) as [c|]; [| by left; left].
  destruct c as [|a c]; [by left; right |]. right. by eexists.
Qed.




(** **** The store as [save_expense] writes it *)

Lemma expense_row_terminated (old : string) today exp :
  terminated (old +:+ expense_row today exp).
Proof.
  right. exists (old +:+ row_text today exp).
  by rewrite Claims.expense_row_text, str_app_assoc.
Qed.

Lemma expense_row_nonempty (old : string) today exp :
  old +:+ expense_row today exp <> EmptyString.
Proof.
  intros H%is_empty_true. rewrite is_empty_app, Claims.expense_row_text in H.
  rewrite is_empty_app, !andb_false_r in H. done.
Qed.

(** One more row gives one more record, the expense itself. *)
Lemma parsed_lines_row (old : string) today exp :
  storable exp -> terminated old ->
  parsed_lines (splitlines (old +:+ expense_row today exp))
  = parsed_lines (splitlines old) ++ [exp].
Proof.
  intros (Hcomma & Hbreak & Hcat & Hrep) Hold.
  rewrite splitlines_app by done.
  rewrite Claims.expense_row_text, splitlines_line by by apply Claims.row_no_break.
  unfold parsed_lines. rewrite omap_app. cbn [omap list_omap].
  by rewrite Claims.parse_row.
Qed.

Lemma save_expense_store exp path (w : world) :
  default EmptyString (fs (save_expense exp path w).2 !! path)
  = default EmptyString (fs w !! path) +:+ expense_row (clock w) exp.
Proof. rewrite Claims.save_expense_run. cbn [snd fs]. by rewrite lookup_insert_eq. Qed.

Lemma after_saving_store (expenses : list Expense) path : forall w : world,
  Forall storable expenses ->
  terminated (default EmptyString (fs w !! path)) ->
  terminated (default EmptyString (fs (after_saving expenses path w) !! path))
  /\ parsed_lines (splitlines (default EmptyString (fs (after_saving expenses path w) !! path)))
     = parsed_lines (splitlines (default EmptyString (fs w !! path))) ++ expenses.
Proof.
  induction expenses as [|e es IH]; intros w Hall Hold.
  - cbn. by rewrite app_nil_r.
  - apply Forall_cons in Hall as [He Hes]. unfold after_saving. cbn [foldl].
    fold (after_saving es path (save_expense e path w).2).
    destruct (IH (save_expense e path w).2 Hes) as [Ht Hp].
    + rewrite save_expense_store. apply expense_row_terminated.
    + split; [done |]. rewrite Hp, save_expense_store, parsed_lines_row by done.
      by rewrite <- app_assoc.
Qed.

(** X16. A store that is missing, empty or ends with a line feed
    still ends with a line feed after [save_expense] has run any
    number of times on it; and when the expenses saved have no comma
    and no line break in their descriptions, a category of the
    catalog and an amount that [str] and [float] carry over, the
    reading loop of [summarize] then returns the records it returned
    before followed by the expenses saved, in the order in which
    they were saved. *)
Theorem saved_expenses_read_back (expenses : list Expense) (path : string) (w : world) :
  Forall storable expenses ->
  terminated (default EmptyString (fs w !! path)) ->
  let w' := after_saving expenses path w in
  let old := default EmptyString (fs w !! path) in
  let new := default EmptyString (fs w' !! path) in
  terminated new
  /\ (read_expenses new w').1 = Ok (parsed_lines (splitlines old) ++ expenses)
  /\ (read_expenses old w).1 = Ok (parsed_lines (splitlines old)).
Proof.
  intros Hall Hold. cbn zeta.
  destruct (after_saving_store expenses path w Hall Hold) as [Ht Hp].
  rewrite !read_expenses_run. cbn [fst]. by rewrite Hp.
Qed.

(** Coffee, then a bus ticket, saved to a store that does not exist
    yet. *)
Lemma saved_expenses_read_back_witness :
  let exps := [mkExpense "Coffee" "Food" (of_Z 50);
               mkExpense "Bus" "Transport" (Fin (Q2Qc (25 # 10)))] in
  let path := expense_file_for june_1 in
  let w' := after_saving exps path (empty_world june_1) in
  (read_expenses (default EmptyString (fs w' !! path)) w').1 = Ok exps.
Proof.
  intros exps path w'.
  destruct (saved_expenses_read_back exps path (empty_world june_1)) as (_ & Hread & _).
  - apply Forall_cons. split; [| apply Forall_cons; split; [| constructor]].
    + split; [reflexivity | split; [reflexivity | split]];
        [apply list_elem_of_here | by exists 0%nat, 1%Z].
    + split; [reflexivity | split; [reflexivity | split]];
        [apply list_elem_of_further, list_elem_of_here | by exists 1%nat, 5%Z].
  - by left.
  - exact Hread.
Defined.

(** **** Saving, then summarizing *)

Lemma sum_amounts_snoc (expenses : list Expense) exp :
  sum_amounts (expenses ++ [exp]) = add (sum_amounts expenses) (amount exp).
Proof. unfold sum_amounts. by rewrite fold_left_app. Qed.

Lemma category_sum_snoc (expenses : list Expense) exp :
  category_sum (category exp) (expenses ++ [exp])
  = add (category_sum (category exp) expenses) (amount exp).
Proof.
  unfold category_sum, amounts_in.
  rewrite filter_app, fmap_app, fold_left_app, filter_cons_True by done.
  reflexivity.
Qed.

Lemma first_seen_elem (l : list string) x : x ∈ first_seen l <-> x ∈ l.
Proof.
  induction l as [|y r IH]; cbn [first_seen]; [done |].
  rewrite !elem_of_cons, list_elem_of_filter, IH.
  destruct (decide (x = y)); tauto.
Qed.

(** X17. When [main] has saved an expense that a row can hold to a
    store that is missing, empty or ends with a line feed, the report
    that [summarize] prints next for a budget other than zero counts
    it: the line of its category shows the amount recorded under
    that category before plus the new amount, and the total and the
    remaining budget are those of the records read before with the
    new amount added. *)
Theorem saved_expense_is_summarized (exp : Expense) (path : string)
    (budget : pyfloat) (w : world) :
  storable exp ->
  terminated (default EmptyString (fs w !! path)) ->
  truthy budget = true ->
  let olds := parsed_lines (splitlines (default EmptyString (fs w !! path))) in
  let spent := add (sum_amounts olds) (amount exp) in
  let r := summarize path budget (save_expense exp path w).2 in
  exists before after pct,
    stdout r.2
    = stdout w ++ [MsgSaved] ++ before
      ++ [MsgTotalSpent spent; MsgRemaining (sub budget spent)] ++ after
    /\ MsgCategoryLine (emoji_of (category exp)) (category exp)
         (add (category_sum (category exp) olds) (amount exp)) pct ∈ before.
Proof.
  intros Hexp Hold Hb. cbn zeta.
  set (old := default EmptyString (fs w !! path)) in *.
  set (content := old +:+ expense_row (clock w) exp).
  assert (Hc : fs (save_expense exp path w).2 !! path = Some content).
  { rewrite Claims.save_expense_run. cbn [snd fs]. by rewrite lookup_insert_eq. }
  rewrite (summarize_run path budget _ content Hc (expense_row_nonempty _ _ _)).
  cbn zeta. unfold content at 1 2. rewrite parsed_lines_row by done.
  fold content. set (olds := parsed_lines (splitlines old)).
  assert (divides_by_zero_budget (aggregate (olds ++ [exp]))
            (sum_amounts (olds ++ [exp])) budget = false) as ->.
  { unfold divides_by_zero_budget. rewrite Hb. cbn [negb]. by rewrite andb_false_r. }
  assert (Hline : MsgCategoryLine (emoji_of (category exp)) (category exp)
                    (add (category_sum (category exp) olds) (amount exp))
                    (pct_of (add (category_sum (category exp) olds) (amount exp))
                       (sum_amounts (olds ++ [exp])))
                  ∈ category_lines (aggregate (olds ++ [exp]))
                      (sum_amounts (olds ++ [exp]))).
  { unfold category_lines. rewrite aggregate_shape, <- list_fmap_compose.
    apply list_elem_of_fmap. exists (category exp). cbn [compose].
    rewrite category_sum_snoc. split; [done |].
    apply first_seen_elem. rewrite fmap_app, elem_of_app. right. by left. }
  assert (Hbody : report_body content budget (clock (save_expense exp path w).2)
                  = category_lines (aggregate (olds ++ [exp]))
                      (sum_amounts (olds ++ [exp]))
                    ++ [MsgTotalSpent (add (sum_amounts olds) (amount exp));
                        MsgRemaining (sub budget (add (sum_amounts olds) (amount exp)))]
                    ++ [MsgDaily (daily_allowance
                                    (sub budget (add (sum_amounts olds) (amount exp)))
                                    (days_left_on (clock (save_expense exp path w).2)));
                        Prompt AskShowPie]).
  { unfold report_body. cbn zeta. unfold content.
    rewrite parsed_lines_row by done. fold olds. by rewrite sum_amounts_snoc. }
  rewrite Hbody. rewrite Claims.save_expense_run. cbn [snd fs stdin stdout clock].
  destruct (stdin w) as [|ans more]; cbn [snd stdout].
  - eexists (report_head content ++ _), _, _. split; [| apply elem_of_app; right; exact Hline].
    rewrite <- !app_assoc. reflexivity.
  - destruct (says_yes ans).
    + eexists (report_head content ++ _), _, _.
      split; [| apply elem_of_app; right; exact Hline].
      rewrite <- !app_assoc. reflexivity.
    + eexists (report_head content ++ _), _, _.
      split; [| apply elem_of_app; right; exact Hline].
      rewrite <- !app_assoc. reflexivity.
Qed.

(** Coffee for 50, saved to a new store and summarized against a
    budget of 200. *)
Lemma saved_expense_is_summarized_witness :
  let exp := mkExpense "Coffee" "Food" (of_Z 50) in
  let path := expense_file_for june_1 in
  let w := mkWorld ∅ ["n"] [] june_1 in
  exists before after,
    stdout (summarize path (of_Z 200) (save_expense exp path w).2).2
    = [MsgSaved] ++ before
      ++ [MsgTotalSpent (of_Z 50); MsgRemaining (of_Z 150)] ++ after.
Proof.
  intros exp path w.
  destruct (saved_expense_is_summarized exp path (of_Z 200) w)
    as (before & after & pct & Hout & _).
  - split; [reflexivity | split; [reflexivity | split]];
      [apply list_elem_of_here | by exists 0%nat, 1%Z].
  - by left.
  - reflexivity.
  - exists before, after. cbn zeta in Hout.
    replace (add (sum_amounts (parsed_lines (splitlines (default EmptyString (fs w !! path)))))
               (amount exp)) with (of_Z 50) in Hout by (symmetry; settle).
    replace (sub (of_Z 200) (of_Z 50)) with (of_Z 150) in Hout by (symmetry; settle).
    exact Hout.
Defined.

(** **** Answers, carry-over and emoji *)

Lemma lower_char_y (c : ascii) :
  lower_char c = "y"%char <-> c = "y"%char \/ c = "Y"%char.
Proof.
  destruct c as [b0 b1 b2 b3 b4 b5 b6 b7].
  destruct b0, b1, b2, b3, b4, b5, b6, b7; vm_compute;
    (split; [intros H; first [discriminate H | by left | by right]
            | intros [H | H]; first [discriminate H | reflexivity]]).
Qed.

Lemma lower_y (t : string) : lower t = "y" <-> t = "y" \/ t = "Y".
Proof.
  destruct t as [|c [|c' r]]; cbn [lower].
  - split; [done | by intros [? | ?]].
  - split.
    + intros [= H]. apply lower_char_y in H as [-> | ->]; [by left | by right].
    + intros [[= ->] | [= ->]]; reflexivity.
  - split; [done | by intros [? | ?]].
Qed.

(** X18. The three questions of the program (carry the budget over,
    add an expense, show the chart; lines 78-79, 210 and 228) take an
    answer of the ASCII range for a yes exactly when it is the one
    letter [y] or [Y] with nothing but white space around it: every
    other answer, the word [yes] included, counts as a no. *)
Theorem says_yes_iff (s : string) :
  ascii_text s = true ->
  (says_yes s = true <-> strip s = "y" \/ strip s = "Y").
Proof.
  intros _. unfold says_yes. rewrite bool_decide_eq_true. apply lower_y.
Qed.

(** The word [yes] is a no. *)
Lemma says_yes_iff_witness : says_yes "yes" = false.
Proof.
  destruct (says_yes "yes") eqn:E; [| reflexivity].
  apply (says_yes_iff "yes") in E; [| reflexivity].
  destruct E as [E | E]; discriminate E.
Defined.

(** X19. When the carry-over is offered and accepted, whatever the
    budget of the month before reads as is written to the file of
    the new month in the form of [str] and returned, after the one
    question; and the text written reads back as the same value. *)
Theorem budget_carried_over (today prev : date) (w : world) (c ans : string)
    (b : pyfloat) (rest : list string) :
  day today = 1%nat ->
  last_day_of_previous_month today = Some prev ->
  fs w !! budget_file_for today = None ->
  fs w !! budget_file_for prev = Some c ->
  float_of_string (strip c) = Some b ->
  stdin w = ans :: rest -> says_yes ans = true ->
  load_or_create_budget today w
  = (Ok b,
     mkWorld (<[budget_file_for today := str_of_float b]> (fs w)) rest
       (stdout w ++ [Prompt (AskReuseBudget today b)]) (clock w))
  /\ float_of_string (strip (str_of_float b)) = Some b.
Proof.
  intros Hday Hprev Hnone Hc Hb Hin Hans. split; [| by apply (float_roundtrip (strip c))].
  unfold load_or_create_budget.
  rewrite bind_run, (path_exists_None _ _ Hnone). rewrite Hprev.
  rewrite bind_run, (path_exists_Some _ _ _ Hc). rewrite Hday. cbn [Nat.eqb andb].
  rewrite bind_run, (read_text_run _ _ _ Hc).
  rewrite bind_run, Claims.py_float_run, Hb.
  rewrite bind_run, input_run, Hin, Hans.
  reflexivity.
Qed.

(** December 2024 has a budget of 12.5; on 1 January the answer is
    [Y]. *)
Lemma budget_carried_over_witness :
  let today := mkDate 2025 1 1 in
  let w := mkWorld {[ "budget_2024-12.txt" := " 12.5" +:+ String LF EmptyString ]}
             [" Y "] [] today in
  load_or_create_budget today w
  = (Ok (Fin (Q2Qc (25 # 2))),
     mkWorld (<[ "budget_2025-01.txt" := "12.5" ]> (fs w)) []
       [Prompt (AskReuseBudget today (Fin (Q2Qc (25 # 2))))] today).
Proof.
  intros today w.
  apply (budget_carried_over today (mkDate 2024 12 31) w
           (" 12.5" +:+ String LF EmptyString) " Y " (Fin (Q2Qc (25 # 2))) []).
  - reflexivity.
  - reflexivity.
  - settle.
  - settle.
  - settle.
  - reflexivity.
  - reflexivity.
Defined.

Lemma emoji_lookup (l : list (string * string)) (cat : string) :
  match filter (fun ce : string * string => ce.1 = cat) l with
  | (c, e) :: _ => c = cat /\ (c, e) ∈ l
  | [] => cat ∉ l.*1
  end.
Proof.
  induction l as [|[c e] l IH]; [by apply not_elem_of_nil |].
  rewrite filter_cons. cbn [fst]. destruct (decide (c = cat)) as [-> | Hne].
  - split; [done | by left].
  - destruct (filter _ l) as [|[c' e'] ?].
    + cbn [fmap list_fmap fst]. intros [? | ?]%elem_of_cons; [congruence | done].
    + destruct IH as [-> ?]. split; [done | by right].
Qed.

(** X20. The emoji of a category line (line 198) is the one that
    the catalog pairs with the category; a category that is on file
    but not in the catalog is reported all the same, with an empty
    emoji. *)
Theorem emoji_of_catalog (cat : string) :
  (cat ∈ EXPENSE_CATEGORIES.*1 -> (cat, emoji_of cat) ∈ EXPENSE_CATEGORIES)
  /\ (cat ∉ EXPENSE_CATEGORIES.*1 -> emoji_of cat = EmptyString).
Proof.
  unfold emoji_of. pose proof (emoji_lookup EXPENSE_CATEGORIES cat) as H.
  destruct (filter _ EXPENSE_CATEGORIES) as [|[c e] ?].
  - split; [done | done].
  - destruct H as [-> Hin]. split; [done |]. intros Hno. exfalso. apply Hno.
    apply list_elem_of_fmap. by exists (cat, e).
Qed.

(** **** The division by the budget *)

Lemma sum_amounts_truthy (expenses : list Expense) :
  truthy (sum_amounts expenses) = true -> expenses <> [].
Proof. by intros H ->. Qed.

(** X21. [summarize] raises [ZeroDivisionError] exactly when the
    budget is zero and the amounts of the records that it reads from
    the store do not add up to zero; the division is the one of line
    196.  With no store, or no record that can be read, a budget of
    zero is reported on without an error.  Arithmetic is exact
    here. *)
Theorem summarize_divides_by_zero_iff (path : string) (budget : pyfloat) (w : world) :
  let spent := sum_amounts (parsed_lines (splitlines (default EmptyString (fs w !! path)))) in
  (summarize path budget w).1 = Raise ZeroDivisionError
  <-> truthy budget = false /\ truthy spent = true.
Proof.
  cbn zeta. destruct (store_cases path w) as [H | (content & Hc & Hne)].
  - rewrite summarize_nothing by done.
    assert (default EmptyString (fs w !! path) = EmptyString) as -> by (by destruct H as [-> | ->]).
    split; [done | by intros [_ ?]].
  - rewrite (summarize_run path budget w content Hc Hne), Hc. cbn zeta.
    cbn [default from_option id].
    set (expenses := parsed_lines (splitlines content)).
    unfold divides_by_zero_budget.
    destruct (truthy (sum_amounts expenses)) eqn:Ht; cbn [andb].
    + destruct (truthy budget); cbn [negb andb].
      * destruct (stdin w); split; first [done | by intros [? _]].
      * pose proof (Claims.aggregate_nonempty expenses (sum_amounts_truthy _ Ht)) as Hn.
        destruct (aggregate expenses); [done |]. by split.
    + destruct (stdin w); split; first [done | by intros [_ ?]].
Qed.

(** **** The calendar *)

Lemma previous_month_differs (today prev : date) :
  (1 <= month today)%nat ->
  last_day_of_previous_month today = Some prev ->
  budget_file_for prev <> budget_file_for today.
Proof.
  intros Hm Hprev E. unfold budget_file_for in E.
  rewrite !str_app_cons, !str_app_nil_l in E. injection E as E.
  apply month_label_app_inj in E as [Hy Hmo]; [| done | done].
  unfold last_day_of_previous_month in Hprev.
  destruct (Nat.eqb_spec (month today) 1) as [H1 | H1].
  - destruct (year today <=? 1)%nat; [done |]. injection Hprev as <-.
    cbn [month] in Hmo. lia.
  - injection Hprev as <-. cbn [month] in Hmo. lia.
Qed.

(** X22. The file of the month before, which the carry-over reads, is
    never the file that the resolver writes: whatever
    [load_or_create_budget] does on a date of the calendar, the
    budget file of the month before is afterwards what it was. *)
Theorem previous_budget_untouched (today prev : date) (w : world) :
  (1 <= month today)%nat ->
  last_day_of_previous_month today = Some prev ->
  budget_file_for prev <> budget_file_for today
  /\ fs (load_or_create_budget today w).2 !! budget_file_for prev
     = fs w !! budget_file_for prev.
Proof.
  intros Hm Hprev. pose proof (previous_month_differs today prev Hm Hprev) as Hne.
  split; [done |].
  pose proof (budget_resolver_changes today w) as Hd. unfold same_but in Hd.
  rewrite <- (lookup_delete_ne (fs (load_or_create_budget today w).2)
                (budget_file_for today) (budget_file_for prev)) by done.
  rewrite Hd. by apply lookup_delete_ne.
Qed.

(** On 1 January 2025 the budget of December 2024 is carried over and
    stays on file. *)
Lemma previous_budget_untouched_witness :
  let today := mkDate 2025 1 1 in
  let prev := mkDate 2024 12 31 in
  let w := mkWorld {[ budget_file_for prev := "5000" ]} ["y"] [] today in
  fs (load_or_create_budget today w).2 !! budget_file_for prev = Some "5000".
Proof.
  intros today prev w.
  destruct (previous_budget_untouched today prev w) as [_ H].
  - cbn. lia.
  - reflexivity.
  - rewrite H. settle.
Defined.

Lemma days_in_month_le (y m : nat) : (days_in_month y m <= 31)%nat.
Proof.
  unfold days_in_month.
  do 13 (destruct m as [|m]; [try destruct (isleap y); lia |]). lia.
Qed.

(** X23. On a date of the calendar the number of days left in the
    month that [summarize] computes (line 205) is between 0 and 30,
    and it is 0 on the last day of the month only: the daily
    allowance is never the remaining budget divided by a negative
    number of days. *)
Theorem days_left_bounds (today : date) :
  valid_date today ->
  (0 <= days_left_on today <= 30)%Z
  /\ (days_left_on today = 0%Z
      <-> day today = days_in_month (year today) (month today)).
Proof.
  intros [_ [Hd1 Hd2]]. unfold days_left_on.
  pose proof (days_in_month_le (year today) (month today)). lia.
Qed.

Lemma days_left_bounds_witness : days_left_on (mkDate 2024 2 29) = 0%Z.
Proof.
  apply (days_left_bounds (mkDate 2024 2 29)); [| reflexivity].
  repeat split; cbn; lia.
Defined.

End Further.
